(** * A relay server for 3D tic-tac-toe: model of [server/server.js]

    The server keeps two registries, [rooms] (room code to room) and
    [playerConnections] (connection to player), and reacts to three kinds
    of events: an inbound message on a connection, the close of a
    connection and the expiry of a timer.  Handlers are modelled as
    functions from the state to the new state and the list of effects
    they issue ([ws.send] calls and [setTimeout] registrations), in the
    order in which the source issues them. *)

From Stdlib Require Import ZArith List Ascii String Permutation Lia.
From stdpp Require Import base gmap strings list fin_maps option.
Import ListNotations.
Open Scope string_scope.

(** ** Values of the runtime *)

(** A handler either returns or lets a [TypeError] escape to its caller. *)
Inductive Result (A : Type) : Type :=
| Return (a : A)
| Throw.
Arguments Return {A} a.
Arguments Throw {A}.

(** The board is an array of three layers, each an array of three rows of
    three cells; a cell is the string [''], ['X'] or ['O']. *)
Abbreviation Row := (list string).
Abbreviation Layer := (list (list string)).
Abbreviation Board := (list (list (list string))).

(** The fields [layer], [row] and [col] of a [make_move] message are used
    as property keys.  The model covers the keys that are integer-valued
    numbers and the three property names that walk the prototype chain of
    an array.  The other keys that a payload can carry (a string of digits,
    which names the same property as the number, and the other names that
    an array inherits, such as ['length'] or ['push']) have no counterpart
    here: a statement about every [JsKey] speaks of the keys listed. *)
Inductive JsKey : Type :=
| KIndex (z : Z)      (* the number z *)
| KProto              (* the string '__proto__' *)
| KConstructor        (* the string 'constructor' *)
| KName.              (* the string 'name' *)

(** The objects of the standard library that these keys reach. *)
Inductive Builtin : Type :=
| ArrayPrototype
| ObjectPrototype
| FunctionPrototype
| StringPrototype
| ArrayCtor
| ObjectCtor
| FunctionCtor
| StringCtor.

Inductive JsValue : Type :=
| VUndefined
| VNull
| VString (s : string)
| VRow (r : Row)
| VLayer (l : Layer)
| VBoard (b : Board)
| VBuiltin (o : Builtin).

(** [a[k]] on an array [a] whose elements are injected by [inj]: an own
    element, else the property inherited from [Array.prototype]. *)
Definition array_get {A : Type} (inj : A -> JsValue) (a : list A) (k : JsKey)
  : JsValue :=
  match k with
  | KIndex z =>
      if (0 <=? z)%Z then
        match a !! Z.to_nat z with
        | Some x => inj x
        | None => VUndefined
        end
      else VUndefined
  | KProto => VBuiltin ArrayPrototype
  | KConstructor => VBuiltin ArrayCtor
  | KName => VUndefined
  end.

(** [s[k]] on a primitive string. *)
Definition string_get (s : string) (k : JsKey) : JsValue :=
  match k with
  | KIndex z =>
      if (0 <=? z)%Z then
        match String.get (Z.to_nat z) s with
        | Some c => VString (String c EmptyString)
        | None => VUndefined
        end
      else VUndefined
  | KProto => VBuiltin StringPrototype
  | KConstructor => VBuiltin StringCtor
  | KName => VUndefined
  end.

(** [o[k]] on an object of the standard library.  No such object has an
    integer-named property; [Function.prototype.name] is the empty
    string. *)
Definition builtin_get (o : Builtin) (k : JsKey) : JsValue :=
  match k, o with
  | KIndex _, _ => VUndefined
  | KProto, ObjectPrototype => VNull
  | KProto, (ArrayPrototype | FunctionPrototype | StringPrototype) =>
      VBuiltin ObjectPrototype
  | KProto, (ArrayCtor | ObjectCtor | FunctionCtor | StringCtor) =>
      VBuiltin FunctionPrototype
  | KConstructor, ArrayPrototype => VBuiltin ArrayCtor
  | KConstructor, ObjectPrototype => VBuiltin ObjectCtor
  | KConstructor, FunctionPrototype => VBuiltin FunctionCtor
  | KConstructor, StringPrototype => VBuiltin StringCtor
  | KConstructor, (ArrayCtor | ObjectCtor | FunctionCtor | StringCtor) =>
      VBuiltin FunctionCtor
  | KName, FunctionPrototype => VString ""
  | KName, ArrayCtor => VString "Array"
  | KName, ObjectCtor => VString "Object"
  | KName, FunctionCtor => VString "Function"
  | KName, StringCtor => VString "String"
  | KName, (ArrayPrototype | ObjectPrototype | StringPrototype) => VUndefined
  end.

(** The property read [v[k]]: a [TypeError] on [undefined] and [null]. *)
Definition get_prop (v : JsValue) (k : JsKey) : Result JsValue :=
  match v with
  | VUndefined | VNull => Throw
  | VString s => Return (string_get s k)
  | VRow r => Return (array_get VString r k)
  | VLayer l => Return (array_get VRow l k)
  | VBoard b => Return (array_get VLayer b k)
  | VBuiltin o => Return (builtin_get o k)
  end.

(** The expression [board[layer][row][col]]. *)
Definition read_cell (b : Board) (layer row col : JsKey) : Result JsValue :=
  match get_prop (VBoard b) layer with
  | Throw => Throw
  | Return v1 =>
      match get_prop v1 row with
      | Throw => Throw
      | Return v2 => get_prop v2 col
      end
  end.

(** The comparison [v !== '']. *)
Definition not_empty_string (v : JsValue) : bool :=
  match v with
  | VString s => negb (String.eqb s "")
  | _ => true
  end.

(** ** The board *)

Definition Coord : Type := nat * nat * nat.

(** [board[layer][row][col]] at a coordinate of the table; [None] stands
    for [undefined]. *)
Definition cell_at (b : Board) (c : Coord) : option string :=
  let '(layer, row, col) := c in
  match b !! layer with
  | Some l => match l !! row with Some r => r !! col | None => None end
  | None => None
  end.

(** [board[layer][row][col] = v] at a cell of the grid. *)
Definition set_cell (b : Board) (c : Coord) (v : string) : Board :=
  let '(layer, row, col) := c in
  alter (alter (<[col := v]>) row) layer b.

(** The assignment [room.board[layer][row][col] = symbol] of
    [handleMakeMove].  It runs only after [board[layer][row][col]] was
    read as [''] (see [read_empty_cases] below), which leaves two targets:
    a cell of the grid, or [Function.prototype.name], which is not
    writable, so that the assignment is ignored (the file is not in
    strict mode). *)
Definition assign_cell (b : Board) (layer row col : JsKey) (v : string)
  : Board :=
  match layer, row, col with
  | KIndex l, KIndex r, KIndex c =>
      if ((0 <=? l) && (0 <=? r) && (0 <=? c))%Z
      then set_cell b (Z.to_nat l, Z.to_nat r, Z.to_nat c) v
      else b
  | _, _, _ => b
  end.

(** [Array(3).fill().map(() => Array(3).fill().map(() => Array(3).fill('')))] *)
Definition emptyBoard : Board :=
  replicate 3 (replicate 3 (replicate 3 "")).

Definition range3 : list nat := [0; 1; 2]%nat.

(** The table that [checkWin] builds, one definition per loop. *)
Definition layerRows : list (list Coord) :=
  flat_map (fun layer =>
    map (fun row => [(layer, row, 0); (layer, row, 1); (layer, row, 2)]%nat)
        range3) range3.

Definition layerColumns : list (list Coord) :=
  flat_map (fun layer =>
    map (fun col => [(layer, 0, col); (layer, 1, col); (layer, 2, col)]%nat)
        range3) range3.

Definition layerDiagonals : list (list Coord) :=
  flat_map (fun layer =>
    [ [(layer, 0, 0); (layer, 1, 1); (layer, 2, 2)]%nat;
      [(layer, 0, 2); (layer, 1, 1); (layer, 2, 0)]%nat ]) range3.

Definition verticals : list (list Coord) :=
  flat_map (fun row =>
    map (fun col => [(0, row, col); (1, row, col); (2, row, col)]%nat)
        range3) range3.

Definition crossDiagonalsByColumn : list (list Coord) :=
  flat_map (fun col =>
    [ [(0, 0, col); (1, 1, col); (2, 2, col)]%nat;
      [(0, 2, col); (1, 1, col); (2, 0, col)]%nat ]) range3.

Definition crossDiagonalsByRow : list (list Coord) :=
  flat_map (fun row =>
    [ [(0, row, 0); (1, row, 1); (2, row, 2)]%nat;
      [(0, row, 2); (1, row, 1); (2, row, 0)]%nat ]) range3.

Definition spaceDiagonals : list (list Coord) :=
  [ [(0, 0, 0); (1, 1, 1); (2, 2, 2)]%nat;
    [(0, 0, 2); (1, 1, 1); (2, 2, 0)]%nat;
    [(0, 2, 0); (1, 1, 1); (2, 0, 2)]%nat;
    [(0, 2, 2); (1, 1, 1); (2, 0, 0)]%nat ].

Definition winningCombinations : list (list Coord) :=
  (layerRows ++ layerColumns ++ layerDiagonals ++ verticals
   ++ crossDiagonalsByColumn ++ crossDiagonalsByRow ++ spaceDiagonals)%list.

Record WinResult : Type := mkWin {
  winner : string;
  winningCells : list Coord
}.

(** [values.every(val => val === player && val !== '')] *)
Definition all_equal (player : string) (values : list (option string)) : bool :=
  forallb (fun val =>
    match val with
    | Some s => String.eqb s player && negb (String.eqb s "")
    | None => false
    end) values.

Definition checkWin (b : Board) (player : string) : option WinResult :=
  match find (fun combination => all_equal player (map (cell_at b) combination))
             winningCombinations with
  | Some combination => Some (mkWin player combination)
  | None => None
  end.

Definition checkDraw (b : Board) : bool :=
  forallb (fun layer =>
    forallb (fun row =>
      forallb (fun cell => negb (String.eqb cell "")) row) layer) b.

(** ** Rooms, players and sessions *)

(** A connection handle ([ws]) is a number.  A player object is
    [{ ws, symbol, roomCode }]; [pid] is the identity of the object, which
    [broadcastToRoom] compares with [!==]. *)
Record Player : Type := mkPlayer {
  pid : nat;
  ws : nat;
  symbol : string;
  roomCode : string
}.

Record Room : Type := mkRoom {
  code : string;
  players : list Player;
  board : Board;
  currentPlayer : string;
  gameStarted : bool;
  gameEnded : bool
}.

(** The two registries, and the number of player objects created so far. *)
Record State : Type := mkState {
  rooms : gmap string Room;
  playerConnections : gmap nat Player;
  allocated : nat
}.

Definition initial : State := mkState ∅ ∅ 0.

(** ** Messages *)

(** A parsed inbound message, by its [type].  The [roomCode] of a
    [join_room] is [None] when the field is missing or is not a string (no
    key of [rooms] is equal to such a value); [JsonNull] is the payload
    [null], on which reading [message.type] throws. *)
Inductive Message : Type :=
| JoinRoom (requested : option string)
| MakeMove (layer row col : JsKey)
| NewGame
| LeaveRoom
| ChatMessage (text : string)
| UnknownType
| JsonNull.

(** What arrives on a connection: [JSON.parse] throws or yields a message. *)
Inductive Data : Type :=
| Unparseable
| Parsed (m : Message).

(** Outbound messages, by their [type]: room_joined, player_joined,
    game_start, move_made, game_over, player_left, chat_message, error. *)
Inductive OutMsg : Type :=
| RoomJoined (joinedCode playerSymbol : string)
| PlayerJoined (playerSymbol : string)
| GameStart (current : string)
| MoveMade (layer row col : JsKey) (player nextPlayer : string)
| GameOver (won : option string) (cells : option (list Coord))
| PlayerLeft (playerSymbol : string)
| ChatFrom (from text : string)
| Error (message : string).

(** [Send w m] is the call [w.send(JSON.stringify(m))]; [SetTimeout ms c m]
    registers the callback [() => broadcastToRoom(c, m)] with delay [ms]. *)
Inductive Effect : Type :=
| Send (to : nat) (m : OutMsg)
| SetTimeout (ms : nat) (target : string) (m : OutMsg).

(** [Math.random().toString(36).substring(2, 8).toUpperCase()], as a
    function of the string [Math.random().toString(36)]. *)
Definition toUpperCase_ascii (c : ascii) : ascii :=
  let n := nat_of_ascii c in
  if ((97 <=? n) && (n <=? 122))%nat then ascii_of_nat (n - 32) else c.

Fixpoint toUpperCase (s : string) : string :=
  match s with
  | EmptyString => EmptyString
  | String c s' => String (toUpperCase_ascii c) (toUpperCase s')
  end.

Definition generateRoomCode (random36 : string) : string :=
  toUpperCase (substring 2 6 random36).

Definition with_rooms (st : State) (rs : gmap string Room) : State :=
  mkState rs (playerConnections st) (allocated st).

Section Server.

(** [readyOpen w] tells whether [w.readyState === WebSocket.OPEN]; the
    handlers only read it. *)
Variable readyOpen : nat -> bool.

Definition broadcastToRoom (st : State) (target : string) (message : OutMsg)
    (excludePlayer : option Player) : list Effect :=
  match rooms st !! target with
  | None => []
  | Some room =>
      map (fun player => Send (ws player) message)
        (List.filter (fun player =>
           match excludePlayer with
           | Some e => negb (pid player =? pid e)%nat
           | None => true
           end && readyOpen (ws player)) (players room))
  end.

Definition sendToPlayer (player : Player) (message : OutMsg) : list Effect :=
  if readyOpen (ws player) then [Send (ws player) message] else [].

(** [rnd] is the value of [Math.random().toString(36)] that
    [generateRoomCode] would draw in this call. *)
Definition handleJoinRoom (st : State) (w : nat) (requested : option string)
    (rnd : string) : State * list Effect :=
  let existing :=
    match requested with
    | Some c => if String.eqb c "" then None
                else match rooms st !! c with Some r => Some (c, r) | None => None end
    | None => None
    end in
  let joinable :=
    match existing with
    | Some (c, room) =>
        if (2 <=? length (players room))%nat then None else Some (c, room, st)
    | None =>
        let c := generateRoomCode rnd in
        let room := mkRoom c [] emptyBoard "X" false false in
        Some (c, room, with_rooms st (<[c := room]> (rooms st)))
    end in
  match joinable with
  | None => (st, [Send w (Error "Room is full")])
  | Some (c, room, st0) =>
      let playerSymbol := if (length (players room) =? 0)%nat then "X" else "O" in
      let player := mkPlayer (allocated st0) w playerSymbol c in
      let room1 := mkRoom (code room) (players room ++ [player])%list (board room)
                     (currentPlayer room) (gameStarted room) (gameEnded room) in
      let st1 := mkState (<[c := room1]> (rooms st0))
                   (<[w := player]> (playerConnections st0))
                   (S (allocated st0)) in
      let joined :=
        Send w (RoomJoined c playerSymbol)
        :: broadcastToRoom st1 c (PlayerJoined playerSymbol) (Some player) in
      if (length (players room1) =? 2)%nat then
        let room2 := mkRoom (code room1) (players room1) (board room1)
                       (currentPlayer room1) true (gameEnded room1) in
        let st2 := with_rooms st1 (<[c := room2]> (rooms st1)) in
        (st2, (joined ++ broadcastToRoom st2 c (GameStart (currentPlayer room2)) None)%list)
      else (st1, joined)
  end.

Definition handleMakeMove (st : State) (w : nat) (layer row col : JsKey)
    : Result (State * list Effect) :=
  match playerConnections st !! w with
  | None => Return (st, [])
  | Some player =>
      match rooms st !! roomCode player with
      | None => Return (st, [Send w (Error "Game not active")])
      | Some room =>
          if negb (gameStarted room) || gameEnded room then
            Return (st, [Send w (Error "Game not active")])
          else if negb (String.eqb (currentPlayer room) (symbol player)) then
            Return (st, [Send w (Error "Not your turn")])
          else
            match read_cell (board room) layer row col with
            | Throw => Throw
            | Return v =>
                if not_empty_string v then
                  Return (st, [Send w (Error "Cell already taken")])
                else
                  let board1 := assign_cell (board room) layer row col (symbol player) in
                  let winResult := checkWin board1 (symbol player) in
                  let isDraw :=
                    match winResult with
                    | Some _ => false
                    | None => checkDraw board1
                    end in
                  if bool_decide (is_Some winResult) || isDraw then
                    let room1 := mkRoom (code room) (players room) board1
                                   (currentPlayer room) (gameStarted room) true in
                    let st1 := with_rooms st (<[roomCode player := room1]> (rooms st)) in
                    Return (st1,
                      (broadcastToRoom st1 (roomCode player)
                         (MoveMade layer row col (symbol player) (currentPlayer room1)) None
                       ++ [SetTimeout 500 (roomCode player)
                             (GameOver (winner <$> winResult) (winningCells <$> winResult))])%list)
                  else
                    let room1 := mkRoom (code room) (players room) board1
                                   (if String.eqb (currentPlayer room) "X" then "O" else "X")
                                   (gameStarted room) (gameEnded room) in
                    let st1 := with_rooms st (<[roomCode player := room1]> (rooms st)) in
                    Return (st1,
                      broadcastToRoom st1 (roomCode player)
                        (MoveMade layer row col (symbol player) (currentPlayer room1)) None)
            end
      end
  end.

Definition handleNewGame (st : State) (w : nat) : State * list Effect :=
  match playerConnections st !! w with
  | None => (st, [])
  | Some player =>
      match rooms st !! roomCode player with
      | None => (st, [])
      | Some room =>
          if (length (players room) <? 2)%nat then (st, [])
          else
            let room1 := mkRoom (code room) (players room) emptyBoard "X" true false in
            let st1 := with_rooms st (<[roomCode player := room1]> (rooms st)) in
            (st1, broadcastToRoom st1 (roomCode player)
                    (GameStart (currentPlayer room1)) None)
      end
  end.

Definition handleChatMessage (st : State) (w : nat) (text : string)
    : State * list Effect :=
  match playerConnections st !! w with
  | None => (st, [])
  | Some player =>
      (st, broadcastToRoom st (roomCode player) (ChatFrom (symbol player) text) None)
  end.

Definition handleDisconnect (st : State) (w : nat) : State * list Effect :=
  match playerConnections st !! w with
  | None => (st, [])
  | Some player =>
      let '(rooms1, sent) :=
        match rooms st !! roomCode player with
        | None => (rooms st, [])
        | Some room =>
            let room1 := mkRoom (code room)
                           (List.filter (fun p => negb (ws p =? w)%nat) (players room))
                           (board room) (currentPlayer room)
                           (gameStarted room) (gameEnded room) in
            let st1 := with_rooms st (<[roomCode player := room1]> (rooms st)) in
            let sent := broadcastToRoom st1 (roomCode player)
                          (PlayerLeft (symbol player)) None in
            if (length (players room1) =? 0)%nat then
              (delete (roomCode player) (rooms st1), sent)
            else
              (<[roomCode player :=
                   mkRoom (code room1) (players room1) (board room1)
                     (currentPlayer room1) false false]> (rooms st1), sent)
        end in
      (mkState rooms1 (delete w (playerConnections st)) (allocated st), sent)
  end.

Definition handleLeaveRoom (st : State) (w : nat) : State * list Effect :=
  handleDisconnect st w.

(** The [switch] of [handleMessage].  Only [handleMakeMove] and the read of
    [message.type] can throw, and both do so before any state is written
    or any message is sent. *)
Definition handleMessage (st : State) (w : nat) (message : Message)
    (rnd : string) : Result (State * list Effect) :=
  match message with
  | JoinRoom requested => Return (handleJoinRoom st w requested rnd)
  | MakeMove layer row col => handleMakeMove st w layer row col
  | NewGame => Return (handleNewGame st w)
  | LeaveRoom => Return (handleLeaveRoom st w)
  | ChatMessage text => Return (handleChatMessage st w text)
  | UnknownType => Return (st, [Send w (Error "Unknown message type")])
  | JsonNull => Throw
  end.

(** [ws.on('message', ...)]: parse, dispatch, and answer any exception
    with an error reply. *)
Definition onMessage (st : State) (w : nat) (data : Data) (rnd : string)
    : State * list Effect :=
  match data with
  | Unparseable => (st, [Send w (Error "Invalid message format")])
  | Parsed message =>
      match handleMessage st w message rnd with
      | Return r => r
      | Throw => (st, [Send w (Error "Invalid message format")])
      end
  end.

(** [ws.on('close', ...)] *)
Definition onClose (st : State) (w : nat) : State * list Effect :=
  handleDisconnect st w.

(** The callback registered by [SetTimeout ms target m], when it fires. *)
Definition onTimeout (st : State) (target : string) (m : OutMsg)
    : State * list Effect :=
  (st, broadcastToRoom st target m None).

(** ** The event loop *)

Inductive Event : Type :=
| Receive (w : nat) (data : Data) (rnd : string)
| Close (w : nat)
| TimerFired (target : string) (m : OutMsg).

Definition step (st : State) (ev : Event) : State * list Effect :=
  match ev with
  | Receive w data rnd => onMessage st w data rnd
  | Close w => onClose st w
  | TimerFired target m => onTimeout st target m
  end.

End Server.

(** One event at a time, each run to completion; the sockets may change
    their [readyState] between and during events. *)
Inductive reachable : State -> Prop :=
| reachable_initial : reachable initial
| reachable_step (open : nat -> bool) (st : State) (ev : Event) :
    reachable st -> reachable (step open st ev).1.

(** ** Notions used by the statements *)

(** A line is won by [player]: its cells all hold [player], which is not
    the empty cell. *)
Definition line_full (b : Board) (player : string) (combination : list Coord)
    : Prop :=
  player ≠ "" ∧ Forall (fun c => cell_at b c = Some player) combination.

(** The six families of lines, each by its geometry. *)
Definition is_layer_row (line : list Coord) : Prop :=
  ∃ layer row, line = [(layer, row, 0); (layer, row, 1); (layer, row, 2)]%nat.

Definition is_layer_column (line : list Coord) : Prop :=
  ∃ layer col, line = [(layer, 0, col); (layer, 1, col); (layer, 2, col)]%nat.

Definition is_layer_diagonal (line : list Coord) : Prop :=
  ∃ layer, line = [(layer, 0, 0); (layer, 1, 1); (layer, 2, 2)]%nat
           ∨ line = [(layer, 0, 2); (layer, 1, 1); (layer, 2, 0)]%nat.

Definition is_vertical (line : list Coord) : Prop :=
  ∃ row col, line = [(0, row, col); (1, row, col); (2, row, col)]%nat.

Definition is_cross_diagonal (line : list Coord) : Prop :=
  ∃ k, line = [(0, 0, k); (1, 1, k); (2, 2, k)]%nat
       ∨ line = [(0, 2, k); (1, 1, k); (2, 0, k)]%nat
       ∨ line = [(0, k, 0); (1, k, 1); (2, k, 2)]%nat
       ∨ line = [(0, k, 2); (1, k, 1); (2, k, 0)]%nat.

Definition is_space_diagonal (line : list Coord) : Prop :=
  ∃ row col, (row = 0 ∨ row = 2)%nat ∧ (col = 0 ∨ col = 2)%nat ∧
             line = [(0, row, col); (1, 1, 1); (2, 2 - row, 2 - col)]%nat.

(** The shape that every board of the server has. *)
Definition board_shape (b : Board) : Prop :=
  length b = 3%nat ∧
  Forall (fun layer => length layer = 3%nat ∧
                       Forall (fun row : Row => length row = 3%nat) layer) b.

Definition in_grid (c : Coord) : Prop :=
  let '(layer, row, col) := c in (layer < 3 ∧ row < 3 ∧ col < 3)%nat.

(** The same symbol written on a sequence of cells, one after the other. *)
Fixpoint place_all (b : Board) (cells : list Coord) (v : string) : Board :=
  match cells with
  | [] => b
  | c :: rest => place_all (set_cell b c v) rest v
  end.

(** [line] is the complete line of [player] that comes first in the
    table, at index [i]. *)
Definition first_full_line (b : Board) (player : string) (i : nat)
    (line : list Coord) : Prop :=
  winningCombinations !! i = Some line ∧ line_full b player line ∧
  ∀ j earlier, (j < i)%nat → winningCombinations !! j = Some earlier →
               ¬ line_full b player earlier.

(** No line of the table is complete for [player]. *)
Definition no_full_line (b : Board) (player : string) : Prop :=
  ∀ line, line ∈ winningCombinations → ¬ line_full b player line.

(** No cell of the board is empty. *)
Definition board_full (b : Board) : Prop :=
  ∀ coord v, cell_at b coord = Some v → v ≠ "".

(** Every room is stored under its own code. *)
Definition rooms_keyed (st : State) : Prop :=
  ∀ c room, rooms st !! c = Some room → code room = c.

Definition boards_shaped (st : State) : Prop :=
  ∀ c room, rooms st !! c = Some room → board_shape (board room).

(** [join_room] finds no room to join and creates one. *)
Definition creates_room (st : State) (requested : option string) : Prop :=
  match requested with
  | Some c => c = "" ∨ rooms st !! c = None
  | None => True
  end.

(** Connection [w] has an entry in the player list of the room stored
    under [c]. *)
Definition seated (st : State) (w : nat) (c : string) : Prop :=
  ∃ room p, rooms st !! c = Some room ∧ p ∈ players room ∧ ws p = w.

(** The event is not a [join_room] sent by connection [w] while [w] is
    bound; what the other connections send is not restricted. *)
Definition joins_unbound (w : nat) (st : State) (ev : Event) : Prop :=
  match ev with
  | Receive w' (Parsed (JoinRoom _)) _ =>
      w' = w → playerConnections st !! w = None
  | _ => True
  end.

(** The states reached when connection [w] sends no [join_room] while it
    is bound. *)
Inductive reachable_joining_once (w : nat) : State -> Prop :=
| joining_once_initial : reachable_joining_once w initial
| joining_once_step (open : nat -> bool) (st : State) (ev : Event) :
    reachable_joining_once w st -> joins_unbound w st ev ->
    reachable_joining_once w (step open st ev).1.

(** Every entry of connection [w] in a room is the binding of [w] and
    carries the code under which the room is stored. *)
Definition entries_bound (w : nat) (st : State) : Prop :=
  ∀ c room p, rooms st !! c = Some room → p ∈ players room → ws p = w →
    playerConnections st !! w = Some p ∧ roomCode p = c.

(** [broadcastToRoom] on a room taken by itself: [m] to every player
    whose socket is open, in list order. *)
Definition to_open_players (open : nat -> bool) (ps : list Player) (m : OutMsg)
    : list Effect :=
  map (fun p => Send (ws p) m) (List.filter (fun p => open (ws p)) ps).

(** Sample runs, with every socket open. *)
Definition all_open : nat -> bool := fun _ => true.

Definition run (evs : list Event) (st : State) : State :=
  foldl (fun s ev => (step all_open s ev).1) st evs.

(** Connection 1 creates room [ABC123] and connection 2 joins it. *)
Definition two_players : State :=
  run [ Receive 1 (Parsed (JoinRoom None)) "0.abc123xyz";
        Receive 2 (Parsed (JoinRoom (Some "ABC123"))) "0.k2j5" ] initial.

(** Two moves each in room [ABC123]: X holds (0,0,0) and (0,0,1) and is to
    move. *)
Definition x_to_win : State :=
  run [ Receive 1 (Parsed (MakeMove (KIndex 0) (KIndex 0) (KIndex 0))) "";
        Receive 2 (Parsed (MakeMove (KIndex 1) (KIndex 0) (KIndex 0))) "";
        Receive 1 (Parsed (MakeMove (KIndex 0) (KIndex 0) (KIndex 1))) "";
        Receive 2 (Parsed (MakeMove (KIndex 1) (KIndex 0) (KIndex 1))) "" ]
      two_players.

(** X has taken the centre cell in room [ABC123] and O is to move. *)
Definition centre_taken : State :=
  run [ Receive 1 (Parsed (MakeMove (KIndex 1) (KIndex 1) (KIndex 1))) "" ]
      two_players.

(** Room [ABC123] with a game under way in which O holds every cell but
    (2,2,2), which is empty, and X is to move. *)
Definition one_cell_left : State :=
  mkState
    {[ "ABC123" :=
         mkRoom "ABC123"
           [mkPlayer 0 1 "X" "ABC123"; mkPlayer 1 2 "O" "ABC123"]
           [ [ ["O"; "O"; "O"]; ["O"; "O"; "O"]; ["O"; "O"; "O"] ];
             [ ["O"; "O"; "O"]; ["O"; "O"; "O"]; ["O"; "O"; "O"] ];
             [ ["O"; "O"; "O"]; ["O"; "O"; "O"]; ["O"; "O"; ""] ] ]
           "X" true false ]}
    {[ 1%nat := mkPlayer 0 1 "X" "ABC123"; 2%nat := mkPlayer 1 2 "O" "ABC123" ]}
    2.

(** Connection 1 creates room [ABC123], joins again, which creates room
    [K2J5QQ], and connection 2 joins room [ABC123]. *)
Definition joined_twice : State :=
  run [ Receive 1 (Parsed (JoinRoom None)) "0.abc123xyz";
        Receive 1 (Parsed (JoinRoom None)) "0.k2j5qq01";
        Receive 2 (Parsed (JoinRoom (Some "ABC123"))) "0.k2j5" ] initial.

(** ** Notions used by the further properties *)

Definition is_symbol (s : string) : Prop := s = "X" ∨ s = "O".

Definition is_cell (s : string) : Prop := s = "" ∨ s = "X" ∨ s = "O".

Definition board_cells (b : Board) : Prop :=
  Forall (fun layer : Layer => Forall (fun row : Row => Forall is_cell row) layer) b.

(** A room has one or two players; a game is started only in a room of
    two, and ended only if started. *)
Definition room_sized (room : Room) : Prop :=
  (1 <= length (players room) <= 2)%nat ∧
  (gameStarted room = true → length (players room) = 2%nat) ∧
  (gameEnded room = true → gameStarted room = true).

(** The strings of a room are symbols and cells. *)
Definition room_lettered (room : Room) : Prop :=
  Forall (fun p => is_symbol (symbol p)) (players room) ∧
  is_symbol (currentPlayer room) ∧ board_cells (board room).

(** A binding is stored under its own connection; every player object was
    created before the counter reached its present value. *)
Definition bindings_sound (st : State) : Prop :=
  (∀ w p, playerConnections st !! w = Some p →
          ws p = w ∧ is_symbol (symbol p) ∧ (pid p < allocated st)%nat) ∧
  (∀ c room p, rooms st !! c = Some room → In p (players room) →
               (pid p < allocated st)%nat).

Definition rooms_consistent (st : State) : Prop :=
  ∀ c room, rooms st !! c = Some room → room_sized room ∧ room_lettered room.

(** The other symbol, as [handleMakeMove] computes it. *)
Definition otherPlayer (s : string) : string :=
  if String.eqb s "X" then "O" else "X".




(** The connection that a message or a close event comes from. *)
Definition sender (ev : Event) : option nat :=
  match ev with
  | Receive w _ _ => Some w
  | Close w => Some w
  | TimerFired _ _ => None
  end.

(** * Properties *)

Arguments assign_cell : simpl never.
Arguments read_cell : simpl never.
Arguments set_cell : simpl never.
Arguments checkWin : simpl never.
Arguments checkDraw : simpl never.
Arguments broadcastToRoom : simpl never.
Arguments emptyBoard : simpl never.

(** ** The table of winning lines and [checkWin] *)

Lemma find_first {A : Type} (f : A -> bool) (l : list A) :
  match find f l with
  | Some x =>
      ∃ i, l !! i = Some x ∧ f x = true ∧
           ∀ j y, (j < i)%nat → l !! j = Some y → f y = false
  | None => ∀ x, x ∈ l → f x = false
  end.
Proof.
  induction l as [|a l IH]; simpl.
  - intros x Hx. inversion Hx.
  - destruct (f a) eqn:Hfa.
    + exists 0%nat. split; [done|]. split; [done|]. intros j y Hj. lia.
    + destruct (find f l) as [x|].
      * destruct IH as (i & Hi & Hfx & Hbefore).
        exists (S i). split; [done|]. split; [done|].
        intros [|j] y Hj Hy; simpl in Hy.
        -- by injection Hy as <-.
        -- apply (Hbefore j); [lia | done].
      * intros x Hx. apply elem_of_cons in Hx as [->|Hx]; [done | by apply IH].
Qed.

Lemma all_equal_line_full (b : Board) (player : string) (combination : list Coord) :
  combination ≠ [] →
  all_equal player (map (cell_at b) combination) = true ↔
  line_full b player combination.
Proof.
  intros Hne. unfold all_equal, line_full.
  rewrite forallb_forall, Forall_forall.
  split.
  - intros H. split.
    + destruct combination as [|c rest]; [done|].
      specialize (H (cell_at b c)). simpl in H.
      destruct (cell_at b c) as [s|] eqn:Hc.
      * specialize (H (or_introl eq_refl)).
        apply andb_true_iff in H as [H1 H2].
        apply String.eqb_eq in H1 as ->.
        intros ->. by rewrite String.eqb_refl in H2.
      * by specialize (H (or_introl eq_refl)).
    + intros c Hc.
      specialize (H (cell_at b c)).
      assert (Hin : In (cell_at b c) (map (cell_at b) combination)).
      { by apply in_map. }
      specialize (H Hin).
      destruct (cell_at b c) as [s|]; [|done].
      apply andb_true_iff in H as [H1 _].
      by apply String.eqb_eq in H1 as ->.
  - intros [Hp H] v Hv. apply in_map_iff in Hv as (c & <- & Hc).
    rewrite (H c Hc).
    rewrite String.eqb_refl. simpl.
    apply negb_true_iff. by apply String.eqb_neq.
Qed.

Lemma winningCombinations_length : length winningCombinations = 49%nat.
Proof. reflexivity. Qed.

Lemma winningCombinations_triples :
  Forall (fun combination => length combination = 3%nat) winningCombinations.
Proof. apply (bool_decide_unpack _). by vm_compute. Qed.

Lemma winningCombinations_in_grid :
  Forall (fun combination => Forall in_grid combination) winningCombinations.
Proof. repeat constructor. Qed.

Lemma winningCombinations_nonempty (combination : list Coord) :
  combination ∈ winningCombinations → combination ≠ [].
Proof.
  intros Hin ->.
  pose proof winningCombinations_triples as H.
  rewrite Forall_forall in H. apply list_elem_of_In in Hin.
  by specialize (H _ Hin).
Qed.

(** [checkWin] finds no line exactly when no line of the table is won. *)
Lemma checkWin_None (b : Board) (player : string) :
  checkWin b player = None ↔
  ∀ combination, combination ∈ winningCombinations →
                 ¬ line_full b player combination.
Proof.
  unfold checkWin.
  pose proof (find_first
    (fun combination => all_equal player (map (cell_at b) combination))
    winningCombinations) as H.
  destruct (find _ winningCombinations) as [x|].
  - destruct H as (i & Hi & Hx & _). split; [done|]. intros Hno. exfalso.
    assert (x ∈ winningCombinations) as Hin by (by eapply list_elem_of_lookup_2).
    apply (Hno x Hin).
    by apply all_equal_line_full; [apply winningCombinations_nonempty|].
  - split; [|done]. intros _ combination Hin Hfull.
    apply all_equal_line_full in Hfull; [|by apply winningCombinations_nonempty].
    rewrite (H _ Hin) in Hfull. done.
Qed.

(** What [checkWin] returns is the first won line of the table. *)
Lemma checkWin_Some (b : Board) (player : string) (res : WinResult) :
  checkWin b player = Some res →
  winner res = player ∧
  ∃ i, winningCombinations !! i = Some (winningCells res) ∧
       line_full b player (winningCells res) ∧
       ∀ j other, (j < i)%nat → winningCombinations !! j = Some other →
                  ¬ line_full b player other.
Proof.
  unfold checkWin.
  pose proof (find_first
    (fun combination => all_equal player (map (cell_at b) combination))
    winningCombinations) as H.
  destruct (find _ winningCombinations) as [x|]; [|done].
  intros [= <-]. simpl. split; [done|].
  destruct H as (i & Hi & Hx & Hbefore). exists i.
  split; [done|]. split.
  - apply all_equal_line_full; [|done].
    apply winningCombinations_nonempty. by eapply list_elem_of_lookup_2.
  - intros j other Hj Hother Hfull.
    apply all_equal_line_full in Hfull.
    + by rewrite (Hbefore j other Hj Hother) in Hfull.
    + apply winningCombinations_nonempty. by eapply list_elem_of_lookup_2.
Qed.

Lemma winningCombinations_families :
  Forall is_layer_row layerRows ∧ Forall is_layer_column layerColumns ∧
  Forall is_layer_diagonal layerDiagonals ∧ Forall is_vertical verticals ∧
  Forall is_cross_diagonal (crossDiagonalsByColumn ++ crossDiagonalsByRow) ∧
  Forall is_space_diagonal spaceDiagonals.
Proof.
  repeat split.
  - repeat constructor; by eexists _, _.
  - repeat constructor; by eexists _, _.
  - repeat constructor; eexists; by eauto.
  - repeat constructor; by eexists _, _.
  - repeat constructor; eexists; by eauto 6.
  - repeat constructor; eexists _, _; by eauto.
Qed.

(** C1: for every board and symbol, [checkWin] scans a table of 49 lines
    (9 rows, 9 columns and 6 diagonals inside the layers, 9 verticals, 12
    diagonals across the layers, 4 space diagonals, in this order), each
    made of 3 distinct cells of the grid and no two of them equal, and
    returns the first line in table order whose cells all hold the symbol,
    the symbol not being the empty cell, with that symbol as winner; it
    returns nothing exactly when the table has no such line. *)
Theorem checkWin_first_full_line (b : Board) (player : string) :
  winningCombinations
  = (layerRows ++ layerColumns ++ layerDiagonals ++ verticals
     ++ (crossDiagonalsByColumn ++ crossDiagonalsByRow) ++ spaceDiagonals)%list ∧
  (length layerRows = 9 ∧ length layerColumns = 9 ∧
   length layerDiagonals = 6 ∧ length verticals = 9 ∧
   length (crossDiagonalsByColumn ++ crossDiagonalsByRow) = 12 ∧
   length spaceDiagonals = 4 ∧ length winningCombinations = 49)%nat ∧
  (Forall is_layer_row layerRows ∧ Forall is_layer_column layerColumns ∧
   Forall is_layer_diagonal layerDiagonals ∧ Forall is_vertical verticals ∧
   Forall is_cross_diagonal (crossDiagonalsByColumn ++ crossDiagonalsByRow) ∧
   Forall is_space_diagonal spaceDiagonals) ∧
  Forall (fun combination =>
            length combination = 3%nat ∧ NoDup combination ∧
            Forall in_grid combination) winningCombinations ∧
  NoDup winningCombinations ∧
  match checkWin b player with
  | Some res =>
      winner res = player ∧
      ∃ i, winningCombinations !! i = Some (winningCells res) ∧
           line_full b player (winningCells res) ∧
           ∀ j other, (j < i)%nat → winningCombinations !! j = Some other →
                      ¬ line_full b player other
  | None =>
      ∀ combination, combination ∈ winningCombinations →
                     ¬ line_full b player combination
  end.
Proof.
  split; [reflexivity|].
  split; [by repeat split|].
  split; [apply winningCombinations_families|].
  split.
  { pose proof winningCombinations_triples as H3.
    pose proof winningCombinations_in_grid as Hgrid.
    assert (Hdistinct : Forall NoDup winningCombinations)
      by (apply (bool_decide_unpack _); by vm_compute).
    rewrite Forall_forall in H3, Hgrid, Hdistinct |- *.
    intros line Hline. auto. }
  split; [apply (bool_decide_unpack _); by vm_compute|].
  destruct (checkWin b player) as [res|] eqn:Hres.
  - by apply checkWin_Some.
  - by apply checkWin_None.
Qed.

Lemma checkWin_first_full_line_witness :
  let b := place_all emptyBoard [(1, 0, 2); (1, 1, 2); (1, 2, 2)]%nat "O" in
  let line := [(1, 0, 2); (1, 1, 2); (1, 2, 2)]%nat in
  ∃ i, winningCombinations !! i = Some line ∧
       line_full b "O" line ∧
       ∀ j other, (j < i)%nat → winningCombinations !! j = Some other →
                  ¬ line_full b "O" other.
Proof.
  exact (proj2 (proj2 (proj2 (proj2 (proj2 (proj2
           (checkWin_first_full_line
              (place_all emptyBoard [(1, 0, 2); (1, 1, 2); (1, 2, 2)]%nat "O")
              "O"))))))).
Defined.

(** ** Writing cells *)

Lemma cell_at_set_cell (b : Board) (c c' : Coord) (v : string) :
  cell_at (set_cell b c v) c' =
  if decide (c = c')
  then match cell_at b c with Some _ => Some v | None => None end
  else cell_at b c'.
Proof.
  destruct c as [[l r] k], c' as [[l' r'] k']. unfold set_cell, cell_at.
  rewrite list_lookup_alter.
  destruct (decide (l = l')) as [<-|Hl].
  - destruct (b !! l) as [layer|] eqn:Hlayer; simpl.
    + rewrite list_lookup_alter.
      destruct (decide (r = r')) as [<-|Hr].
      * destruct (layer !! r) as [row|] eqn:Hrow; simpl.
        -- destruct (decide (k = k')) as [<-|Hk].
           ++ rewrite decide_True by done.
              destruct (row !! k) eqn:Hcell.
              ** apply list_lookup_insert_eq. by eapply lookup_lt_Some.
              ** apply lookup_ge_None. rewrite length_insert.
                 by apply lookup_ge_None.
           ++ rewrite decide_False by congruence.
              by apply list_lookup_insert_ne.
        -- by destruct (decide _).
      * rewrite decide_False by congruence. done.
    + by destruct (decide _).
  - rewrite decide_False by congruence. done.
Qed.

Lemma cell_at_set_cell_same (b : Board) (c c' : Coord) (v : string) :
  cell_at b c' = Some v → cell_at (set_cell b c v) c' = Some v.
Proof.
  intros H. rewrite cell_at_set_cell.
  destruct (decide (c = c')) as [->|]; [by rewrite H | done].
Qed.

Lemma cell_at_set_cell_is_Some (b : Board) (c c' : Coord) (v : string) :
  is_Some (cell_at b c') → is_Some (cell_at (set_cell b c v) c').
Proof.
  intros [x H]. rewrite cell_at_set_cell.
  destruct (decide (c = c')) as [->|]; rewrite ?H; eauto.
Qed.

Lemma place_all_keeps (cells : list Coord) (b : Board) (c : Coord) (v : string) :
  cell_at b c = Some v → cell_at (place_all b cells v) c = Some v.
Proof.
  revert b. induction cells as [|c0 rest IH]; intros b H; simpl; [done|].
  apply IH. by apply cell_at_set_cell_same.
Qed.

Lemma place_all_writes (cells : list Coord) (b : Board) (c : Coord) (v : string) :
  In c cells → is_Some (cell_at b c) →
  cell_at (place_all b cells v) c = Some v.
Proof.
  revert b. induction cells as [|c0 rest IH]; intros b Hin [x Hx]; simpl.
  - destruct Hin.
  - destruct (decide (c0 = c)) as [->|Hne].
    + apply place_all_keeps. rewrite cell_at_set_cell.
      rewrite decide_True by done. by rewrite Hx.
    + destruct Hin as [->|Hin]; [done|].
      apply IH; [done|]. apply cell_at_set_cell_is_Some. eauto.
Qed.

Lemma board_shape_cell (b : Board) (c : Coord) :
  board_shape b → in_grid c → is_Some (cell_at b c).
Proof.
  destruct c as [[l r] k]. intros [Hlen Hlayers] (Hl & Hr & Hk).
  unfold cell_at.
  destruct (lookup_lt_is_Some_2 b l) as [layer Hlayer]; [lia|].
  rewrite Hlayer.
  rewrite Forall_forall in Hlayers.
  destruct (Hlayers layer) as [Hlen' Hrows].
  { apply list_elem_of_In. by eapply list_elem_of_lookup_2. }
  destruct (lookup_lt_is_Some_2 layer r) as [row Hrow]; [lia|].
  rewrite Hrow.
  rewrite Forall_forall in Hrows.
  apply lookup_lt_is_Some_2. rewrite (Hrows row); [lia|].
  apply list_elem_of_In. by eapply list_elem_of_lookup_2.
Qed.

Lemma set_cell_shape (b : Board) (c : Coord) (v : string) :
  board_shape b → board_shape (set_cell b c v).
Proof.
  destruct c as [[l r] k]. intros [Hlen Hlayers]. unfold set_cell. split.
  - by rewrite length_alter.
  - apply Forall_alter; [done|].
    intros layer _ [Hl Hrows]. split.
    + by rewrite length_alter.
    + apply Forall_alter; [done|].
      intros row _ Hrow. by rewrite length_insert.
Qed.

Lemma emptyBoard_shape : board_shape emptyBoard.
Proof. split; [done|]. repeat constructor. Qed.

(** ** Completing a line *)

Lemma table_line_in_grid (line : list Coord) (c : Coord) :
  line ∈ winningCombinations → In c line → in_grid c.
Proof.
  intros Hline Hc.
  pose proof winningCombinations_in_grid as H.
  rewrite Forall_forall in H. apply list_elem_of_In in Hline.
  specialize (H line Hline). rewrite Forall_forall in H. by apply H.
Qed.

Lemma place_all_fills_line (b : Board) (line order : list Coord) (player : string) :
  board_shape b → line ∈ winningCombinations → player ≠ "" →
  Permutation order line →
  line_full (place_all b order player) player line.
Proof.
  intros Hshape Hline Hplayer Hperm. split; [done|].
  apply Forall_forall. intros c Hc.
  apply place_all_writes.
  - eapply Permutation_in; [symmetry; exact Hperm | done].
  - apply board_shape_cell; [done|]. by eapply table_line_in_grid.
Qed.

(** C3, as amended: for every line of the table and every symbol, writing
    the symbol on the three cells of the line, in any order, on a 3x3x3
    board makes [checkWin] report exactly that line and that symbol,
    provided no line that comes before it in the table is complete for the
    symbol once the cells are written; lines that come after it may be
    complete as well. *)
Theorem checkWin_reports_completed_line
    (b : Board) (i : nat) (line order : list Coord) (player : string) :
  board_shape b → winningCombinations !! i = Some line → player ≠ "" →
  Permutation order line →
  (∀ j earlier, (j < i)%nat → winningCombinations !! j = Some earlier →
                ¬ line_full (place_all b order player) player earlier) →
  checkWin (place_all b order player) player = Some (mkWin player line).
Proof.
  intros Hshape Hi Hplayer Hperm Hearlier.
  assert (Hline : line ∈ winningCombinations)
    by (by eapply list_elem_of_lookup_2).
  pose proof (place_all_fills_line b line order player
                Hshape Hline Hplayer Hperm) as Hfull.
  destruct (checkWin (place_all b order player) player) as [res|] eqn:Hres.
  - apply checkWin_Some in Hres as (Hwinner & i0 & Hi0 & Hres & Hfirst).
    destruct res as [p cells]. simpl in *. subst p. f_equal. f_equal.
    destruct (Nat.lt_trichotomy i0 i) as [Hlt | [-> | Hgt]].
    + by destruct (Hearlier i0 cells Hlt Hi0).
    + congruence.
    + by destruct (Hfirst i line Hgt Hi).
  - exfalso. by apply (proj1 (checkWin_None _ _) Hres line).
Qed.

Lemma checkWin_reports_completed_line_witness :
  let b := place_all emptyBoard [(0, 1, 2); (0, 2, 2)]%nat "X" in
  let b' := place_all b [(0, 0, 1); (0, 0, 2); (0, 0, 0)]%nat "X" in
  line_full b' "X" [(0, 0, 2); (0, 1, 2); (0, 2, 2)]%nat ∧
  checkWin b' "X" = Some (mkWin "X" [(0, 0, 0); (0, 0, 1); (0, 0, 2)]%nat).
Proof.
  intros b b'. split.
  - split; [done|]. repeat constructor.
  - apply (checkWin_reports_completed_line b 0).
    + repeat apply set_cell_shape. apply emptyBoard_shape.
    + reflexivity.
    + done.
    + apply (bool_decide_unpack _). by vm_compute.
    + intros j earlier Hj. lia.
Defined.

(** C3, as stated, fails when the last write completes two lines at once:
    with X on (0,0,0) and (0,0,1), no line is complete before or while X
    is written on (0,1,2), (0,2,2) and then (0,0,2); the last write
    completes that column and the first row of layer 0, and [checkWin]
    reports the row, which comes first in the table. *)
Lemma checkWin_simultaneous_lines :
  let b0 := place_all emptyBoard [(0, 0, 0); (0, 0, 1)]%nat "X" in
  let line := [(0, 0, 2); (0, 1, 2); (0, 2, 2)]%nat in
  let order := [(0, 1, 2); (0, 2, 2); (0, 0, 2)]%nat in
  let none_complete := fun b : Board =>
    ∀ p other, p = "X" ∨ p = "O" → other ∈ winningCombinations →
               ¬ line_full b p other in
  board_shape b0 ∧ line ∈ winningCombinations ∧ Permutation order line ∧
  none_complete b0 ∧
  none_complete (place_all b0 (take 1 order) "X") ∧
  none_complete (place_all b0 (take 2 order) "X") ∧
  checkWin (place_all b0 order "X") "X"
  = Some (mkWin "X" [(0, 0, 0); (0, 0, 1); (0, 0, 2)]%nat) ∧
  checkWin (place_all b0 order "X") "X" ≠ Some (mkWin "X" line).
Proof.
  split; [repeat apply set_cell_shape; apply emptyBoard_shape|].
  split; [apply (bool_decide_unpack _); by vm_compute|].
  split; [apply (bool_decide_unpack _); by vm_compute|].
  split; [intros p other [-> | ->]; by apply checkWin_None|].
  split; [intros p other [-> | ->]; by apply checkWin_None|].
  split; [intros p other [-> | ->]; by apply checkWin_None|].
  split; [done|]. by vm_compute.
Qed.

(** ** Moves *)

Lemma read_cell_index (b : Board) (l r c : nat) :
  read_cell b (KIndex (Z.of_nat l)) (KIndex (Z.of_nat r)) (KIndex (Z.of_nat c))
  = Return (match cell_at b (l, r, c) with
            | Some v => VString v
            | None => VUndefined
            end)
  ∨ (read_cell b (KIndex (Z.of_nat l)) (KIndex (Z.of_nat r)) (KIndex (Z.of_nat c))
     = Throw ∧ cell_at b (l, r, c) = None).
Proof.
  unfold read_cell, cell_at. simpl.
  rewrite !(proj2 (Z.leb_le 0 _)) by lia. rewrite !Nat2Z.id.
  destruct (b !! l) as [layer|]; simpl; [|by right].
  rewrite !(proj2 (Z.leb_le 0 _)) by lia. rewrite !Nat2Z.id.
  destruct (layer !! r) as [row|]; simpl; [|by right].
  rewrite !(proj2 (Z.leb_le 0 _)) by lia. rewrite !Nat2Z.id.
  left. by destruct (row !! c).
Qed.

Lemma assign_cell_index (b : Board) (l r c : nat) (v : string) :
  assign_cell b (KIndex (Z.of_nat l)) (KIndex (Z.of_nat r)) (KIndex (Z.of_nat c)) v
  = set_cell b (l, r, c) v.
Proof.
  unfold assign_cell.
  rewrite !(proj2 (Z.leb_le 0 _)) by lia. simpl. by rewrite !Nat2Z.id.
Qed.

Lemma broadcastToRoom_room (open : nat -> bool) (st : State) (target : string)
    (room : Room) (m : OutMsg) :
  rooms st !! target = Some room →
  broadcastToRoom open st target m None = to_open_players open (players room) m.
Proof. intros H. unfold broadcastToRoom, to_open_players. by rewrite H. Qed.

Lemma forallb_lookup {A : Type} (f : A -> bool) (l : list A) :
  forallb f l = true ↔ ∀ i x, l !! i = Some x → f x = true.
Proof.
  rewrite forallb_forall. split.
  - intros H i x Hx. apply H, list_elem_of_In. by eapply list_elem_of_lookup_2.
  - intros H x Hx. apply list_elem_of_In, list_elem_of_lookup in Hx as [i Hi].
    by apply (H i).
Qed.

Lemma forallb_false_lookup {A : Type} (f : A -> bool) (l : list A) :
  forallb f l = false → ∃ i x, l !! i = Some x ∧ f x = false.
Proof.
  induction l as [|a l IH]; simpl; [done|].
  destruct (f a) eqn:Hfa; simpl.
  - intros H. destruct (IH H) as (i & x & Hi & Hx). by exists (S i), x.
  - intros _. by exists 0%nat, a.
Qed.

Lemma checkDraw_true (b : Board) :
  checkDraw b = true ↔ ∀ c v, cell_at b c = Some v → v ≠ "".
Proof.
  unfold checkDraw. rewrite forallb_lookup. split.
  - intros H [[l r] k] v. unfold cell_at.
    destruct (b !! l) as [layer|] eqn:Hlayer; [|done].
    destruct (layer !! r) as [row|] eqn:Hrow; [|done].
    intros Hcell. specialize (H l layer Hlayer).
    rewrite forallb_lookup in H. specialize (H r row Hrow).
    rewrite forallb_lookup in H. specialize (H k v Hcell).
    apply negb_true_iff in H. by apply String.eqb_neq.
  - intros H l layer Hlayer. apply forallb_lookup. intros r row Hrow.
    apply forallb_lookup. intros k v Hcell.
    apply negb_true_iff, String.eqb_neq. apply (H (l, r, k)).
    unfold cell_at. by rewrite Hlayer, Hrow.
Qed.

Lemma checkDraw_false (b : Board) :
  checkDraw b = false ↔ ∃ c, cell_at b c = Some "".
Proof.
  split.
  - unfold checkDraw. intros H.
    apply forallb_false_lookup in H as (l & layer & Hlayer & H).
    apply forallb_false_lookup in H as (r & row & Hrow & H).
    apply forallb_false_lookup in H as (k & v & Hcell & H).
    apply negb_false_iff, String.eqb_eq in H as ->.
    exists (l, r, k). unfold cell_at. by rewrite Hlayer, Hrow.
  - intros [c Hc]. destruct (checkDraw b) eqn:Hdraw; [|done].
    rewrite checkDraw_true in Hdraw. by destruct (Hdraw c "" Hc).
Qed.

(** C2: a move by the player whose turn it is, on an active game and an
    empty cell of the grid, writes the player's symbol on the cell and
    leaves the other cells as they are.  If the board then has a complete
    line of the player, the first one in the table is the winning line; if
    it has none and no cell is empty, the game is drawn.  In both cases
    [gameEnded] becomes true, [currentPlayer] keeps its value, [move_made]
    goes to the players of the room with that value as [nextPlayer], and a
    timer of 500 ms is set whose callback broadcasts [game_over] with the
    winner and the line (both null for a draw).  If the board has no
    complete line of the player and still an empty cell, [currentPlayer]
    becomes the other symbol and [move_made] carries the new value. *)
Theorem make_move_valid (open : nat -> bool) (st : State) (w : nat)
    (player : Player) (room : Room) (l r c : nat) :
  playerConnections st !! w = Some player →
  rooms st !! roomCode player = Some room →
  gameStarted room = true → gameEnded room = false →
  currentPlayer room = symbol player →
  symbol player = "X" ∨ symbol player = "O" →
  cell_at (board room) (l, r, c) = Some "" →
  let key := fun n : nat => KIndex (Z.of_nat n) in
  let board1 := set_cell (board room) (l, r, c) (symbol player) in
  let other := if String.eqb (currentPlayer room) "X" then "O" else "X" in
  let moved := fun next =>
    to_open_players open (players room)
      (MoveMade (key l) (key r) (key c) (symbol player) next) in
  let result := fun ended next =>
    with_rooms st (<[roomCode player :=
      mkRoom (code room) (players room) board1 next true ended]> (rooms st)) in
  let terminal := fun winner cells =>
    Return (result true (currentPlayer room),
            (moved (currentPlayer room)
             ++ [SetTimeout 500 (roomCode player) (GameOver winner cells)])%list) in
  cell_at board1 (l, r, c) = Some (symbol player) ∧
  (∀ coord, coord ≠ (l, r, c) →
            cell_at board1 coord = cell_at (board room) coord) ∧
  other ≠ currentPlayer room ∧ (other = "X" ∨ other = "O") ∧
  (∀ line, line ∈ winningCombinations →
           line_full board1 (symbol player) line →
     ∃ i first, first_full_line board1 (symbol player) i first ∧
       handleMakeMove open st w (key l) (key r) (key c)
       = terminal (Some (symbol player)) (Some first)) ∧
  (no_full_line board1 (symbol player) → board_full board1 →
     handleMakeMove open st w (key l) (key r) (key c)
     = terminal None None) ∧
  (no_full_line board1 (symbol player) →
   (∃ coord, cell_at board1 coord = Some "") →
     handleMakeMove open st w (key l) (key r) (key c)
     = Return (result false other, moved other)) ∧
  ∀ over, onTimeout open (result true (currentPlayer room)) (roomCode player) over
          = (result true (currentPlayer room),
             to_open_players open (players room) over).
Proof.
  intros Hbound Hroom Hstarted Hended Hturn Hsymbol Hcell.
  intros key board1 other moved result terminal.
  split.
  { unfold board1. rewrite cell_at_set_cell, decide_True by done.
    by rewrite Hcell. }
  split.
  { intros coord Hcoord. unfold board1.
    rewrite cell_at_set_cell, decide_False; done. }
  split.
  { unfold other. rewrite Hturn. by destruct Hsymbol as [-> | ->]. }
  split.
  { unfold other. destruct (String.eqb _ _); eauto. }
  assert (Hmove :
    handleMakeMove open st w (key l) (key r) (key c)
    = match checkWin board1 (symbol player) with
      | Some win => terminal (Some (winner win)) (Some (winningCells win))
      | None => if checkDraw board1 then terminal None None
                else Return (result false other, moved other)
      end).
  { unfold handleMakeMove. rewrite Hbound, Hroom, Hstarted, Hended. simpl.
    rewrite Hturn, String.eqb_refl. simpl.
    unfold key.
    destruct (read_cell_index (board room) l r c) as [-> | [_ Hnone]];
      [|congruence].
    rewrite Hcell. simpl. rewrite assign_cell_index. fold board1.
    destruct (checkWin board1 (symbol player)) as [win|] eqn:Hwin.
    - rewrite bool_decide_true by eauto. simpl.
      erewrite broadcastToRoom_room by (simpl; apply lookup_insert_eq).
      simpl. unfold terminal, result, moved.
      by rewrite ?Hstarted, ?Hended, ?Hturn.
    - rewrite bool_decide_false by (intros [? ?]; done). simpl.
      destruct (checkDraw board1).
      + erewrite broadcastToRoom_room by (simpl; apply lookup_insert_eq).
        simpl. unfold terminal, result, moved.
        by rewrite ?Hstarted, ?Hended, ?Hturn.
      + erewrite broadcastToRoom_room by (simpl; apply lookup_insert_eq).
        simpl. unfold result, moved, other.
        by rewrite ?Hstarted, ?Hended, ?Hturn. }
  split.
  { intros line Hline Hfull. rewrite Hmove.
    destruct (checkWin board1 (symbol player)) as [win|] eqn:Hwin.
    - apply checkWin_Some in Hwin as (Hwinner & i & Hi & Hfirst & Hbefore).
      exists i, (winningCells win). by rewrite Hwinner.
    - by destruct (proj1 (checkWin_None _ _) Hwin line). }
  split.
  { intros Hnone Hfilled. rewrite Hmove.
    rewrite (proj2 (checkWin_None _ _) Hnone).
    by rewrite (proj2 (checkDraw_true _) Hfilled). }
  split.
  { intros Hnone Hempty. rewrite Hmove.
    rewrite (proj2 (checkWin_None _ _) Hnone).
    by rewrite (proj2 (checkDraw_false _) Hempty). }
  intros over. unfold onTimeout. f_equal.
  erewrite broadcastToRoom_room
    by (unfold result; simpl; apply lookup_insert_eq).
  done.
Qed.

Lemma make_move_valid_witness :
  (∃ i first,
     first_full_line
       (set_cell [ [ ["X"; "X"; ""]; [""; ""; ""]; [""; ""; ""] ];
                   [ ["O"; "O"; ""]; [""; ""; ""]; [""; ""; ""] ];
                   [ [""; ""; ""]; [""; ""; ""]; [""; ""; ""] ] ]
                 (0, 0, 2)%nat "X") "X" i first ∧
     handleMakeMove all_open x_to_win 1 (KIndex 0) (KIndex 0) (KIndex 2)
     = Return
         (with_rooms x_to_win
            (<["ABC123" :=
                 mkRoom "ABC123"
                   [mkPlayer 0 1 "X" "ABC123"; mkPlayer 1 2 "O" "ABC123"]
                   (set_cell [ [ ["X"; "X"; ""]; [""; ""; ""]; [""; ""; ""] ];
                               [ ["O"; "O"; ""]; [""; ""; ""]; [""; ""; ""] ];
                               [ [""; ""; ""]; [""; ""; ""]; [""; ""; ""] ] ]
                             (0, 0, 2)%nat "X")
                   "X" true true]> (rooms x_to_win)),
          [Send 1 (MoveMade (KIndex 0) (KIndex 0) (KIndex 2) "X" "X");
           Send 2 (MoveMade (KIndex 0) (KIndex 0) (KIndex 2) "X" "X");
           SetTimeout 500 "ABC123" (GameOver (Some "X") (Some first))])) ∧
  handleMakeMove all_open one_cell_left 1 (KIndex 2) (KIndex 2) (KIndex 2)
  = Return
      (with_rooms one_cell_left
         (<["ABC123" :=
              mkRoom "ABC123"
                [mkPlayer 0 1 "X" "ABC123"; mkPlayer 1 2 "O" "ABC123"]
                (set_cell [ [ ["O"; "O"; "O"]; ["O"; "O"; "O"]; ["O"; "O"; "O"] ];
                            [ ["O"; "O"; "O"]; ["O"; "O"; "O"]; ["O"; "O"; "O"] ];
                            [ ["O"; "O"; "O"]; ["O"; "O"; "O"]; ["O"; "O"; ""] ] ]
                          (2, 2, 2)%nat "X")
                "X" true true]> (rooms one_cell_left)),
       [Send 1 (MoveMade (KIndex 2) (KIndex 2) (KIndex 2) "X" "X");
        Send 2 (MoveMade (KIndex 2) (KIndex 2) (KIndex 2) "X" "X");
        SetTimeout 500 "ABC123" (GameOver None None)]).
Proof.
  split.
  - pose proof (make_move_valid all_open x_to_win 1
                  (mkPlayer 0 1 "X" "ABC123")
                  (mkRoom "ABC123"
                     [mkPlayer 0 1 "X" "ABC123"; mkPlayer 1 2 "O" "ABC123"]
                     [ [ ["X"; "X"; ""]; [""; ""; ""]; [""; ""; ""] ];
                       [ ["O"; "O"; ""]; [""; ""; ""]; [""; ""; ""] ];
                       [ [""; ""; ""]; [""; ""; ""]; [""; ""; ""] ] ]
                     "X" true false)
                  0 0 2
                  ltac:(vm_compute; reflexivity) ltac:(vm_compute; reflexivity)
                  eq_refl eq_refl eq_refl
                  (or_introl eq_refl) eq_refl) as H.
    apply (proj1 (proj2 (proj2 (proj2 (proj2 H))))
             [(0, 0, 0); (0, 0, 1); (0, 0, 2)]%nat).
    + apply (bool_decide_unpack _). by vm_compute.
    + split; [done|]. repeat constructor.
  - pose proof (make_move_valid all_open one_cell_left 1
                  (mkPlayer 0 1 "X" "ABC123")
                  (mkRoom "ABC123"
                     [mkPlayer 0 1 "X" "ABC123"; mkPlayer 1 2 "O" "ABC123"]
                     [ [ ["O"; "O"; "O"]; ["O"; "O"; "O"]; ["O"; "O"; "O"] ];
                       [ ["O"; "O"; "O"]; ["O"; "O"; "O"]; ["O"; "O"; "O"] ];
                       [ ["O"; "O"; "O"]; ["O"; "O"; "O"]; ["O"; "O"; ""] ] ]
                     "X" true false)
                  2 2 2
                  ltac:(vm_compute; reflexivity) ltac:(vm_compute; reflexivity)
                  eq_refl eq_refl eq_refl
                  (or_introl eq_refl) eq_refl) as H.
    apply (proj1 (proj2 (proj2 (proj2 (proj2 (proj2 H)))))).
    + refine (proj1 (checkWin_None _ _) _). vm_compute. reflexivity.
    + refine (proj1 (checkDraw_true _) _). vm_compute. reflexivity.
Defined.

(** ** Error replies *)

Lemma broadcastToRoom_sends (open : nat -> bool) (st : State) (target : string)
    (m : OutMsg) (excludePlayer : option Player) (x : Effect) :
  In x (broadcastToRoom open st target m excludePlayer) → ∃ to, x = Send to m.
Proof.
  unfold broadcastToRoom. destruct (rooms st !! target) as [room|]; [|done].
  intros H. apply in_map_iff in H as (p & <- & _). eauto.
Qed.

(** Discards a membership hypothesis that finds an error reply among
    messages of another type. *)
Ltac no_error_in H :=
  repeat match type of H with
  | In _ (_ ++ _)%list => apply in_app_or in H as [H|H]
  | In _ (_ :: _) => destruct H as [H|H]; [discriminate H|]
  | In _ [] => destruct H
  | In _ (broadcastToRoom _ _ _ _ _) =>
      apply broadcastToRoom_sends in H as [? H]; discriminate H
  end.

Lemma handleJoinRoom_error (open : nat -> bool) (st : State) (w : nat)
    (requested : option string) (rnd : string) (to : nat) (text : string) :
  In (Send to (Error text)) (handleJoinRoom open st w requested rnd).2 →
  handleJoinRoom open st w requested rnd = (st, [Send w (Error text)]).
Proof.
  unfold handleJoinRoom.
  set (existing := match requested with Some c => _ | None => _ end).
  destruct existing as [[c room]|].
  - destruct (2 <=? length (players room))%nat.
    + simpl. intros [[= <- <-]|[]]. done.
    + cbv zeta. destruct (length _ =? 2)%nat; simpl; intros H.
      * destruct H as [H|H]; [discriminate H|]. no_error_in H.
      * destruct H as [H|H]; [discriminate H|]. no_error_in H.
  - cbv zeta. destruct (length _ =? 2)%nat; simpl; intros H.
    + destruct H as [H|H]; [discriminate H|]. no_error_in H.
    + destruct H as [H|H]; [discriminate H|]. no_error_in H.
Qed.

Lemma handleMakeMove_error (open : nat -> bool) (st : State) (w : nat)
    (layer row col : JsKey) (r : State * list Effect) (to : nat) (text : string) :
  handleMakeMove open st w layer row col = Return r →
  In (Send to (Error text)) r.2 → r = (st, [Send w (Error text)]).
Proof.
  unfold handleMakeMove.
  destruct (playerConnections st !! w) as [player|]; [|by intros [= <-] []].
  destruct (rooms st !! roomCode player) as [room|];
    [|by intros [= <-] [[= <- <-]|[]]].
  destruct (negb (gameStarted room) || gameEnded room);
    [by intros [= <-] [[= <- <-]|[]]|].
  destruct (negb (currentPlayer room =? symbol player));
    [by intros [= <-] [[= <- <-]|[]]|].
  destruct (read_cell (board room) layer row col) as [v|]; [|done].
  destruct (not_empty_string v); [by intros [= <-] [[= <- <-]|[]]|].
  cbv zeta.
  destruct (bool_decide _ || _); intros [= <-]; simpl; intros H; no_error_in H.
Qed.

Lemma handleDisconnect_error (open : nat -> bool) (st : State) (w to : nat)
    (text : string) :
  ¬ In (Send to (Error text)) (handleDisconnect open st w).2.
Proof.
  unfold handleDisconnect.
  destruct (playerConnections st !! w) as [player|]; [|by intros []].
  destruct (rooms st !! roomCode player) as [room|]; [|by intros []].
  cbv zeta. destruct (length _ =? 0)%nat; simpl; intros H; no_error_in H.
Qed.

Lemma onMessage_error (open : nat -> bool) (st : State) (w : nat) (data : Data)
    (rnd : string) (to : nat) (text : string) :
  In (Send to (Error text)) (onMessage open st w data rnd).2 →
  onMessage open st w data rnd = (st, [Send w (Error text)]).
Proof.
  destruct data as [|message]; simpl.
  { by intros [[= <- <-]|[]]. }
  destruct message; simpl.
  - apply handleJoinRoom_error.
  - destruct (handleMakeMove open st w layer row col) as [r|] eqn:Hmove.
    + intros H. by eapply handleMakeMove_error.
    + by intros [[= <- <-]|[]].
  - unfold handleNewGame.
    destruct (playerConnections st !! w) as [player|]; [|by intros []].
    destruct (rooms st !! roomCode player) as [room|]; [|by intros []].
    destruct (length (players room) <? 2)%nat; [by intros []|].
    simpl. intros H. no_error_in H.
  - intros H. by apply handleDisconnect_error in H.
  - unfold handleChatMessage.
    destruct (playerConnections st !! w) as [player|]; [|by intros []].
    simpl. intros H. no_error_in H.
  - by intros [[= <- <-]|[]].
  - by intros [[= <- <-]|[]].
Qed.

(** X15: a payload that does not parse or parses to [null], an unknown
    message type, a full room, an inactive game, a move out of turn and a
    move on a taken cell are each answered by exactly one error reply, sent
    to the sender, and leave the state as it was; and whatever the message,
    an error reply is never sent together with anything else, to anyone
    else, or with a change of state. *)
Theorem errors_are_local (open : nat -> bool) (st : State) (w : nat)
    (rnd : string) :
  let reply := fun text => (st, [Send w (Error text)]) in
  onMessage open st w Unparseable rnd = reply "Invalid message format" ∧
  onMessage open st w (Parsed JsonNull) rnd = reply "Invalid message format" ∧
  onMessage open st w (Parsed UnknownType) rnd = reply "Unknown message type" ∧
  (∀ c room, c ≠ "" → rooms st !! c = Some room →
     (2 ≤ length (players room))%nat →
     onMessage open st w (Parsed (JoinRoom (Some c))) rnd
     = reply "Room is full") ∧
  (∀ player layer row col,
     playerConnections st !! w = Some player →
     (∀ room, rooms st !! roomCode player = Some room →
              gameStarted room = false ∨ gameEnded room = true) →
     onMessage open st w (Parsed (MakeMove layer row col)) rnd
     = reply "Game not active") ∧
  (∀ player room layer row col,
     playerConnections st !! w = Some player →
     rooms st !! roomCode player = Some room →
     gameStarted room = true → gameEnded room = false →
     currentPlayer room ≠ symbol player →
     onMessage open st w (Parsed (MakeMove layer row col)) rnd
     = reply "Not your turn") ∧
  (∀ player room l r c v,
     playerConnections st !! w = Some player →
     rooms st !! roomCode player = Some room →
     gameStarted room = true → gameEnded room = false →
     currentPlayer room = symbol player →
     cell_at (board room) (l, r, c) = Some v → v ≠ "" →
     onMessage open st w
       (Parsed (MakeMove (KIndex (Z.of_nat l)) (KIndex (Z.of_nat r))
                         (KIndex (Z.of_nat c)))) rnd
     = reply "Cell already taken") ∧
  (∀ data to text,
     In (Send to (Error text)) (onMessage open st w data rnd).2 →
     onMessage open st w data rnd = reply text).
Proof.
  intros reply. repeat split; try done.
  - intros c room Hc Hroom Hfull. unfold reply. simpl. unfold handleJoinRoom.
    apply String.eqb_neq in Hc. rewrite Hc, Hroom.
    by rewrite (proj2 (Nat.leb_le _ _) Hfull).
  - intros player layer row col Hbound Hinactive. unfold reply. simpl.
    unfold handleMakeMove. rewrite Hbound.
    destruct (rooms st !! roomCode player) as [room|]; [|done].
    by destruct (Hinactive room eq_refl) as [-> | ->];
      [|rewrite orb_true_r].
  - intros player room layer row col Hbound Hroom Hstarted Hended Hturn.
    unfold reply. simpl. unfold handleMakeMove.
    rewrite Hbound, Hroom, Hstarted, Hended. simpl.
    apply String.eqb_neq in Hturn. by rewrite Hturn.
  - intros player room l r c v Hbound Hroom Hstarted Hended Hturn Hcell Hv.
    unfold reply. simpl. unfold handleMakeMove.
    rewrite Hbound, Hroom, Hstarted, Hended. simpl.
    rewrite Hturn, String.eqb_refl. simpl.
    destruct (read_cell_index (board room) l r c) as [-> | [_ Hnone]];
      [|congruence].
    rewrite Hcell. simpl. apply String.eqb_neq in Hv. by rewrite Hv.
  - intros data to text. apply onMessage_error.
Qed.

Lemma errors_are_local_witness :
  onMessage all_open two_players 2
    (Parsed (MakeMove (KIndex 0) (KIndex 0) (KIndex 0))) ""
  = (two_players, [Send 2 (Error "Not your turn")]).
Proof.
  pose proof (errors_are_local all_open two_players 2 "") as H.
  apply (proj1 (proj2 (proj2 (proj2 (proj2 (proj2 H)))))
           (mkPlayer 1 2 "O" "ABC123")
           (mkRoom "ABC123"
              [mkPlayer 0 1 "X" "ABC123"; mkPlayer 1 2 "O" "ABC123"]
              emptyBoard "X" true false)).
  - reflexivity.
  - reflexivity.
  - reflexivity.
  - reflexivity.
  - simpl. discriminate.
Defined.

(** ** How the handlers change the state *)

Lemma handleJoinRoom_creates (open : nat -> bool) (st : State) (w : nat)
    (requested : option string) (rnd : string) :
  creates_room st requested →
  let c := generateRoomCode rnd in
  let player := mkPlayer (allocated st) w "X" c in
  handleJoinRoom open st w requested rnd
  = (mkState (<[c := mkRoom c [player] emptyBoard "X" false false]> (rooms st))
       (<[w := player]> (playerConnections st)) (S (allocated st)),
     [Send w (RoomJoined c "X")]).
Proof.
  intros Hcreates c player. unfold handleJoinRoom.
  set (existing := match requested with Some c => _ | None => _ end).
  assert (existing = None) as ->.
  { unfold existing. destruct requested as [c0|]; [|done].
    destruct Hcreates as [-> | Hnone]; [done|].
    rewrite Hnone. by destruct (c0 =? ""). }
  cbv zeta. simpl. fold c. fold player.
  rewrite insert_insert_eq. f_equal. f_equal.
  unfold broadcastToRoom. simpl. rewrite lookup_insert_eq. simpl.
  by rewrite Nat.eqb_refl.
Qed.

Lemma handleJoinRoom_state (open : nat -> bool) (st : State) (w : nat)
    (requested : option string) (rnd : string) :
  (handleJoinRoom open st w requested rnd).1 = st
  ∨ (∃ c, (handleJoinRoom open st w requested rnd).1
          = mkState
              (<[c := mkRoom c [mkPlayer (allocated st) w "X" c]
                        emptyBoard "X" false false]> (rooms st))
              (<[w := mkPlayer (allocated st) w "X" c]> (playerConnections st))
              (S (allocated st)))
  ∨ (∃ c room sym started,
       rooms st !! c = Some room ∧
       (handleJoinRoom open st w requested rnd).1
       = mkState
           (<[c := mkRoom (code room)
                     (players room ++ [mkPlayer (allocated st) w sym c])
                     (board room) (currentPlayer room) started
                     (gameEnded room)]> (rooms st))
           (<[w := mkPlayer (allocated st) w sym c]> (playerConnections st))
           (S (allocated st))).
Proof.
  assert (Hcases : creates_room st requested
            ∨ ∃ c room, requested = Some c ∧ c ≠ "" ∧ rooms st !! c = Some room).
  { destruct requested as [c|]; [|by left]. simpl.
    destruct (decide (c = "")) as [->|Hc]; [by left; left|].
    destruct (rooms st !! c) as [room|] eqn:Hlookup; [|by left; right].
    right. eauto. }
  destruct Hcases as [Hcreates | (c & room & -> & Hc & Hlookup)].
  { right. left. eexists. by rewrite handleJoinRoom_creates. }
  unfold handleJoinRoom. apply String.eqb_neq in Hc. rewrite Hc, Hlookup.
  destruct (2 <=? length (players room))%nat; [by left|].
  right. right. cbv zeta.
  destruct (length _ =? 2)%nat; simpl.
  - rewrite insert_insert_eq. eauto 10.
  - eauto 10.
Qed.

Lemma handleMakeMove_state (open : nat -> bool) (st : State) (w : nat)
    (layer row col : JsKey) (r : State * list Effect) :
  handleMakeMove open st w layer row col = Return r →
  r.1 = st
  ∨ ∃ player room current ended,
      playerConnections st !! w = Some player ∧
      rooms st !! roomCode player = Some room ∧
      r.1 = with_rooms st
              (<[roomCode player :=
                   mkRoom (code room) (players room)
                     (assign_cell (board room) layer row col (symbol player))
                     current (gameStarted room) ended]> (rooms st)).
Proof.
  unfold handleMakeMove.
  destruct (playerConnections st !! w) as [player|] eqn:Hbound;
    [|intros [= <-]; by left].
  destruct (rooms st !! roomCode player) as [room|] eqn:Hroom;
    [|intros [= <-]; by left].
  destruct (negb (gameStarted room) || gameEnded room);
    [intros [= <-]; by left|].
  destruct (negb (currentPlayer room =? symbol player));
    [intros [= <-]; by left|].
  destruct (read_cell (board room) layer row col) as [v|]; [|done].
  destruct (not_empty_string v); [intros [= <-]; by left|].
  cbv zeta.
  destruct (bool_decide _ || _); intros [= <-]; right; simpl;
    by do 4 eexists.
Qed.

Lemma handleNewGame_state (open : nat -> bool) (st : State) (w : nat) :
  (handleNewGame open st w).1 = st
  ∨ ∃ player room,
      playerConnections st !! w = Some player ∧
      rooms st !! roomCode player = Some room ∧
      (handleNewGame open st w).1
      = with_rooms st
          (<[roomCode player :=
               mkRoom (code room) (players room) emptyBoard "X" true false]>
             (rooms st)).
Proof.
  unfold handleNewGame.
  destruct (playerConnections st !! w) as [player|] eqn:Hbound; [|by left].
  destruct (rooms st !! roomCode player) as [room|] eqn:Hroom; [|by left].
  destruct (length (players room) <? 2)%nat; [by left|].
  right. simpl. eauto.
Qed.

Lemma handleDisconnect_room (open : nat -> bool) (st : State) (w : nat)
    (player : Player) (room : Room) :
  playerConnections st !! w = Some player →
  rooms st !! roomCode player = Some room →
  let remaining := List.filter (fun p => negb (ws p =? w)%nat) (players room) in
  handleDisconnect open st w
  = (mkState
       (match remaining with
        | [] => delete (roomCode player) (rooms st)
        | _ :: _ =>
            <[roomCode player :=
                mkRoom (code room) remaining (board room) (currentPlayer room)
                  false false]> (rooms st)
        end)
       (delete w (playerConnections st))
       (allocated st),
     to_open_players open remaining (PlayerLeft (symbol player))).
Proof.
  intros Hbound Hroom remaining.
  unfold handleDisconnect. rewrite Hbound, Hroom. cbv zeta.
  erewrite broadcastToRoom_room by (simpl; apply lookup_insert_eq).
  simpl. fold remaining.
  destruct remaining as [|p rest]; simpl.
  - by rewrite delete_insert_eq.
  - by rewrite insert_insert_eq.
Qed.

Lemma handleDisconnect_no_room (open : nat -> bool) (st : State) (w : nat)
    (player : Player) :
  playerConnections st !! w = Some player →
  rooms st !! roomCode player = None →
  handleDisconnect open st w
  = (mkState (rooms st) (delete w (playerConnections st)) (allocated st), []).
Proof.
  intros Hbound Hroom. unfold handleDisconnect. by rewrite Hbound, Hroom.
Qed.

Lemma handleDisconnect_unbound (open : nat -> bool) (st : State) (w : nat) :
  playerConnections st !! w = None → handleDisconnect open st w = (st, []).
Proof. intros Hgone. unfold handleDisconnect. by rewrite Hgone. Qed.

(** ** Leaving a room *)

Lemma filter_other_sockets (w : nat) (ps : list Player) (p : Player) :
  In p (List.filter (fun q => negb (ws q =? w)%nat) ps) ↔ In p ps ∧ ws p ≠ w.
Proof.
  rewrite filter_In, negb_true_iff, Nat.eqb_neq. done.
Qed.

(** C6: when a bound connection closes or sends [leave_room], every entry
    of that connection is removed from the player list of the room of its
    binding, [player_left] with the symbol of the binding goes to the
    players that remain, the room is deleted exactly when no player
    remains and is otherwise kept with [gameStarted] and [gameEnded] false
    and its board, turn and code as they were, and the binding of the
    connection is removed.  (When the registry has no room under the code
    of the binding, only the binding is removed.) *)
Theorem disconnect_cleanup (open : nat -> bool) (st : State) (w : nat)
    (player : Player) (rnd : string) :
  playerConnections st !! w = Some player →
  onClose open st w = handleDisconnect open st w ∧
  handleLeaveRoom open st w = handleDisconnect open st w ∧
  onMessage open st w (Parsed LeaveRoom) rnd = handleDisconnect open st w ∧
  playerConnections (handleDisconnect open st w).1
  = delete w (playerConnections st) ∧
  playerConnections (handleDisconnect open st w).1 !! w = None ∧
  match rooms st !! roomCode player with
  | Some room =>
      let remaining :=
        List.filter (fun p => negb (ws p =? w)%nat) (players room) in
      let after :=
        mkState
          (match remaining with
           | [] => delete (roomCode player) (rooms st)
           | _ :: _ =>
               <[roomCode player :=
                   mkRoom (code room) remaining (board room)
                     (currentPlayer room) false false]> (rooms st)
           end)
          (delete w (playerConnections st))
          (allocated st) in
      (∀ p, In p remaining ↔ In p (players room) ∧ ws p ≠ w) ∧
      handleDisconnect open st w
      = (after, to_open_players open remaining (PlayerLeft (symbol player))) ∧
      (rooms after !! roomCode player = None ↔ remaining = [])
  | None =>
      handleDisconnect open st w
      = (mkState (rooms st) (delete w (playerConnections st)) (allocated st),
         [])
  end.
Proof.
  intros Hbound.
  split; [done|]. split; [done|]. split; [done|].
  destruct (rooms st !! roomCode player) as [room|] eqn:Hroom.
  - rewrite (handleDisconnect_room open st w player room Hbound Hroom).
    split; [done|]. split; [apply lookup_delete_eq|].
    split; [intros p; apply filter_other_sockets|].
    split; [done|]. simpl.
    destruct (List.filter _ (players room)) as [|p rest].
    + split; [done|]. intros _. apply lookup_delete_eq.
    + by rewrite lookup_insert_eq.
  - rewrite (handleDisconnect_no_room open st w player Hbound Hroom).
    split; [done|]. split; [apply lookup_delete_eq | done].
Qed.

Lemma disconnect_cleanup_witness :
  handleDisconnect all_open two_players 1
  = (mkState
       (<["ABC123" := mkRoom "ABC123" [mkPlayer 1 2 "O" "ABC123"]
                        emptyBoard "X" false false]> (rooms two_players))
       (delete 1 (playerConnections two_players)) 2,
     [Send 2 (PlayerLeft "X")]).
Proof.
  pose proof (disconnect_cleanup all_open two_players 1
                (mkPlayer 0 1 "X" "ABC123") "" eq_refl) as H.
  exact (proj1 (proj2 (proj2 (proj2 (proj2 (proj2 (proj2 H))))))).
Defined.

(** C8: the cleanup of a connection, run a second time, finds no binding:
    it returns without sending anything and without changing the state,
    whether it runs from the close of the socket or from a [leave_room]
    message, and no exception reaches the message boundary. *)
Theorem disconnect_idempotent (open open' : nat -> bool) (st : State) (w : nat)
    (rnd : string) :
  let st1 := (handleDisconnect open st w).1 in
  playerConnections st1 !! w = None ∧
  handleDisconnect open' st1 w = (st1, []) ∧
  onClose open' st1 w = (st1, []) ∧
  handleLeaveRoom open' st1 w = (st1, []) ∧
  handleMessage open' st1 w LeaveRoom rnd = Return (st1, []) ∧
  onMessage open' st1 w (Parsed LeaveRoom) rnd = (st1, []) ∧
  (handleLeaveRoom open st w).1 = st1 ∧
  (onMessage open st w (Parsed LeaveRoom) rnd).1 = st1 ∧
  (onClose open st w).1 = st1.
Proof.
  intros st1.
  assert (Hgone : playerConnections st1 !! w = None).
  { unfold st1, handleDisconnect.
    destruct (playerConnections st !! w) as [player|] eqn:Hbound; [|done].
    destruct (rooms st !! roomCode player) as [room|]; cbv zeta.
    - destruct (length _ =? 0)%nat; simpl; apply lookup_delete_eq.
    - simpl. apply lookup_delete_eq. }
  assert (Hagain : handleDisconnect open' st1 w = (st1, [])).
  { unfold handleDisconnect at 1. by rewrite Hgone. }
  repeat split; try done.
  all: simpl; unfold handleLeaveRoom; by rewrite Hagain.
Qed.

Lemma disconnect_idempotent_witness :
  handleDisconnect all_open (handleDisconnect all_open two_players 1).1 1
  = ((handleDisconnect all_open two_players 1).1, []).
Proof.
  exact (proj1 (proj2 (disconnect_idempotent all_open all_open two_players 1 ""))).
Defined.

(** C9: a broadcast to a code that is not in the registry sends nothing
    and changes nothing; in particular the callback of a timer whose room
    is gone sends nothing, leaves the state as it is and returns. *)
Theorem broadcast_to_missing_room (open : nat -> bool) (st : State)
    (target : string) (m : OutMsg) (excludePlayer : option Player) :
  rooms st !! target = None →
  broadcastToRoom open st target m excludePlayer = [] ∧
  onTimeout open st target m = (st, []) ∧
  step open st (TimerFired target m) = (st, []).
Proof.
  intros Hgone.
  assert (H : ∀ e, broadcastToRoom open st target m e = []).
  { intros e. unfold broadcastToRoom. by rewrite Hgone. }
  split; [apply H|]. simpl. unfold onTimeout. by rewrite H.
Qed.

(** ** Events other than [join_room] *)

Lemma step_other_state (open : nat -> bool) (st : State) (ev : Event) :
  (∀ w requested rnd, ev ≠ Receive w (Parsed (JoinRoom requested)) rnd) →
  (step open st ev).1 = st
  ∨ (∃ w player room brd current started ended,
       playerConnections st !! w = Some player ∧
       rooms st !! roomCode player = Some room ∧
       (brd = emptyBoard
        ∨ ∃ layer row col,
            brd = assign_cell (board room) layer row col (symbol player)) ∧
       (step open st ev).1
       = with_rooms st
           (<[roomCode player :=
                mkRoom (code room) (players room) brd current started ended]>
              (rooms st)))
  ∨ (∃ w player,
       playerConnections st !! w = Some player ∧
       rooms st !! roomCode player = None ∧
       (step open st ev).1
       = mkState (rooms st) (delete w (playerConnections st)) (allocated st))
  ∨ (∃ w player room,
       playerConnections st !! w = Some player ∧
       rooms st !! roomCode player = Some room ∧
       (step open st ev).1
       = mkState
           (match List.filter (fun p => negb (ws p =? w)%nat) (players room) with
            | [] => delete (roomCode player) (rooms st)
            | _ :: _ =>
                <[roomCode player :=
                    mkRoom (code room)
                      (List.filter (fun p => negb (ws p =? w)%nat) (players room))
                      (board room) (currentPlayer room) false false]> (rooms st)
            end)
           (delete w (playerConnections st))
           (allocated st)).
Proof.
  intros Hother.
  assert (Hleave : ∀ w,
    (handleDisconnect open st w).1 = st
    ∨ (∃ player,
         playerConnections st !! w = Some player ∧
         rooms st !! roomCode player = None ∧
         (handleDisconnect open st w).1
         = mkState (rooms st) (delete w (playerConnections st)) (allocated st))
    ∨ (∃ player room,
         playerConnections st !! w = Some player ∧
         rooms st !! roomCode player = Some room ∧
         (handleDisconnect open st w).1
         = mkState
             (match List.filter (fun p => negb (ws p =? w)%nat) (players room) with
              | [] => delete (roomCode player) (rooms st)
              | _ :: _ =>
                  <[roomCode player :=
                      mkRoom (code room)
                        (List.filter (fun p => negb (ws p =? w)%nat) (players room))
                        (board room) (currentPlayer room) false false]> (rooms st)
              end)
             (delete w (playerConnections st))
             (allocated st))).
  { intros w.
    destruct (playerConnections st !! w) as [player|] eqn:Hbound.
    - destruct (rooms st !! roomCode player) as [room|] eqn:Hroom.
      + right. right. exists player, room.
        by rewrite (handleDisconnect_room open st w player room).
      + right. left. exists player.
        by rewrite (handleDisconnect_no_room open st w player).
    - left. by rewrite handleDisconnect_unbound. }
  destruct ev as [w data rnd | w | target m]; simpl.
  - destruct data as [|message]; [by left|]. simpl.
    destruct message; simpl.
    + by destruct (Hother w requested rnd).
    + destruct (handleMakeMove open st w layer row col) as [r|] eqn:Hmove;
        [|by left].
      apply handleMakeMove_state in Hmove
        as [Hsame | (player & room & current & ended & Hb & Hr & Hst)].
      * by left.
      * right. left.
        exists w, player, room,
          (assign_cell (board room) layer row col (symbol player)),
          current, (gameStarted room), ended.
        split; [done|]. split; [done|]. split; [|done]. right. eauto.
    + destruct (handleNewGame_state open st w)
        as [Hsame | (player & room & Hb & Hr & Hst)].
      * by left.
      * right. left. exists w, player, room, emptyBoard, "X", true, false.
        split; [done|]. split; [done|]. split; [by left | done].
    + unfold handleLeaveRoom.
      destruct (Hleave w) as [?|[?|?]];
        [by left | right; right; left; eauto | right; right; right; eauto].
    + unfold handleChatMessage.
      destruct (playerConnections st !! w); by left.
    + by left.
    + by left.
  - unfold onClose.
    destruct (Hleave w) as [?|[?|?]];
      [by left | right; right; left; eauto | right; right; right; eauto].
  - by left.
Qed.

(** ** Invariants of the reachable states *)

Lemma assign_cell_shape (b : Board) (layer row col : JsKey) (v : string) :
  board_shape b → board_shape (assign_cell b layer row col v).
Proof.
  intros Hshape. unfold assign_cell.
  destruct layer, row, col; try done.
  destruct (_ && _); [by apply set_cell_shape | done].
Qed.

Lemma step_rooms (open : nat -> bool) (st : State) (ev : Event)
    (c : string) (room' : Room) :
  rooms (step open st ev).1 !! c = Some room' →
  (code room' = c ∧ board room' = emptyBoard)
  ∨ ∃ room, rooms st !! c = Some room ∧ code room' = code room ∧
            (board room' = board room ∨ board room' = emptyBoard
             ∨ ∃ layer row col v,
                 board room' = assign_cell (board room) layer row col v).
Proof.
  assert (Hjoin_or_not :
    (∃ w requested rnd, ev = Receive w (Parsed (JoinRoom requested)) rnd)
    ∨ (∀ w requested rnd, ev ≠ Receive w (Parsed (JoinRoom requested)) rnd)).
  { destruct ev as [w [|[]] rnd | |]; eauto. }
  destruct Hjoin_or_not as [(w & requested & rnd & ->) | Hother].
  - simpl.
    destruct (handleJoinRoom_state open st w requested rnd)
      as [-> | [(c0 & ->) | (c0 & room & sym & started & Hroom & ->)]];
      simpl; intros H.
    + right. eauto 10.
    + rewrite lookup_insert in H. case_decide; simplify_eq; eauto 10.
    + rewrite lookup_insert in H. case_decide; simplify_eq; eauto 10.
  - destruct (step_other_state open st ev Hother)
      as [-> | [(w & player & room & brd & current & started & ended
                   & Hb & Hr & Hbrd & ->)
               | [(w & player & Hb & Hr & ->)
                 | (w & player & room & Hb & Hr & ->)]]];
      simpl; intros H.
    + right. eauto 10.
    + rewrite lookup_insert in H. case_decide; simplify_eq; [|eauto 10].
      right. exists room. split; [done|]. split; [done|].
      destruct Hbrd as [-> | (layer & row & col & ->)]; simpl; eauto 10.
    + right. eauto 10.
    + destruct (List.filter _ (players room)).
      * rewrite lookup_delete in H. case_decide; simplify_eq. eauto 10.
      * rewrite lookup_insert in H. case_decide; simplify_eq; eauto 10.
Qed.

Lemma reachable_rooms_keyed (st : State) : reachable st → rooms_keyed st.
Proof.
  induction 1 as [|open st ev _ IH]; intros c room' Hlookup.
  - simpl in Hlookup. by rewrite lookup_empty in Hlookup.
  - apply step_rooms in Hlookup
      as [[Hcode _] | (room & Hroom & Hcode & _)]; [done|].
    rewrite Hcode. by apply IH.
Qed.

Lemma reachable_boards_shaped (st : State) : reachable st → boards_shaped st.
Proof.
  induction 1 as [|open st ev _ IH]; intros c room' Hlookup.
  - simpl in Hlookup. by rewrite lookup_empty in Hlookup.
  - apply step_rooms in Hlookup
      as [[_ ->] | (room & Hroom & _ & Hboard)];
      [apply emptyBoard_shape|].
    specialize (IH c room Hroom).
    destruct Hboard as [-> | [-> | (layer & row & col & v & ->)]].
    + done.
    + apply emptyBoard_shape.
    + by apply assign_cell_shape.
Qed.

Lemma reachable_run (evs : list Event) (st : State) :
  reachable st → reachable (run evs st).
Proof.
  revert st. induction evs as [|ev evs IH]; intros st Hst; [done|].
  apply IH. by apply reachable_step.
Qed.

(** ** Room codes *)

(** C5, as amended: in every reachable state each room is stored under its
    own code, so that no two rooms of the registry share a code; a
    [join_room] that creates a room stores the new room, with the sender
    as its player X, under the generated code whatever the registry holds
    (a room already stored under that code is replaced), and answers with
    that code. *)
Theorem room_codes_key_the_registry (st : State) :
  reachable st →
  rooms_keyed st ∧
  (∀ c1 c2 room1 room2,
     rooms st !! c1 = Some room1 → rooms st !! c2 = Some room2 →
     code room1 = code room2 → c1 = c2) ∧
  ∀ open w requested rnd,
    creates_room st requested →
    let c := generateRoomCode rnd in
    let player := mkPlayer (allocated st) w "X" c in
    handleJoinRoom open st w requested rnd
    = (mkState
         (<[c := mkRoom c [player] emptyBoard "X" false false]> (rooms st))
         (<[w := player]> (playerConnections st)) (S (allocated st)),
       [Send w (RoomJoined c "X")]).
Proof.
  intros Hreach.
  pose proof (reachable_rooms_keyed st Hreach) as Hkeyed.
  split; [done|]. split.
  - intros c1 c2 room1 room2 H1 H2 Hcode.
    by rewrite <- (Hkeyed c1 room1 H1), <- (Hkeyed c2 room2 H2).
  - intros open w requested rnd Hcreates. by apply handleJoinRoom_creates.
Qed.

Lemma room_codes_key_the_registry_witness :
  handleJoinRoom all_open two_players 3 (Some "QRS789") "0.u4m2p0c7"
  = (mkState
       (<["U4M2P0" := mkRoom "U4M2P0" [mkPlayer 2 3 "X" "U4M2P0"]
                        emptyBoard "X" false false]> (rooms two_players))
       (<[3 := mkPlayer 2 3 "X" "U4M2P0"]> (playerConnections two_players)) 3,
     [Send 3 (RoomJoined "U4M2P0" "X")]).
Proof.
  assert (Hreach : reachable two_players)
    by apply (reachable_run _ _ reachable_initial).
  pose proof (room_codes_key_the_registry two_players Hreach) as H.
  apply (proj2 (proj2 H) all_open 3 (Some "QRS789") "0.u4m2p0c7").
  right. reflexivity.
Defined.

(** C5, as stated, fails: the code given to a new room is not compared
    with the codes in use.  With room ABC123 active and its creator bound
    to it, a second creation that draws the same code is answered with
    ABC123 and replaces the room in the registry. *)
Lemma room_code_collision :
  let st1 := run [Receive 1 (Parsed (JoinRoom None)) "0.abc123xyz"] initial in
  let r := handleJoinRoom all_open st1 2 None "0.abc123xyz" in
  reachable st1 ∧
  rooms st1 !! "ABC123"
  = Some (mkRoom "ABC123" [mkPlayer 0 1 "X" "ABC123"] emptyBoard "X" false false) ∧
  generateRoomCode "0.abc123xyz" = "ABC123" ∧
  r.2 = [Send 2 (RoomJoined "ABC123" "X")] ∧
  rooms r.1 !! "ABC123"
  = Some (mkRoom "ABC123" [mkPlayer 1 2 "X" "ABC123"] emptyBoard "X" false false) ∧
  playerConnections r.1 !! 1 = Some (mkPlayer 0 1 "X" "ABC123").
Proof.
  split; [apply (reachable_run _ _ reachable_initial)|].
  by vm_compute.
Qed.

(** ** One room per connection *)

Lemma entries_bound_join (open : nat -> bool) (w : nat) (st : State)
    (w' : nat) (requested : option string) (rnd : string) :
  (w' = w → playerConnections st !! w = None) →
  entries_bound w st →
  entries_bound w (handleJoinRoom open st w' requested rnd).1.
Proof.
  intros Hunbound Hinv.
  assert (Hold : ∀ c room p, rooms st !! c = Some room → p ∈ players room →
                 ws p = w →
                 playerConnections st !! w = Some p ∧ roomCode p = c ∧ w' ≠ w).
  { intros c room p Hroom Hp Hw.
    destruct (Hinv c room p Hroom Hp Hw) as [Hb Hc].
    repeat split; [done..|]. intros Heq. specialize (Hunbound Heq). congruence. }
  destruct (handleJoinRoom_state open st w' requested rnd)
    as [-> | [(c0 & ->) | (c0 & room & sym & started & Hroom & ->)]];
    [done| |]; intros c room' p; simpl; intros Hlookup Hp Hw.
  - rewrite lookup_insert in Hlookup. case_decide; simplify_eq.
    + simpl in Hp. apply list_elem_of_singleton in Hp as ->. simpl.
      by rewrite lookup_insert_eq.
    + destruct (Hold c room' p Hlookup Hp eq_refl) as (Hbound & Hcode & Hne).
      split; [|done]. by rewrite lookup_insert_ne.
  - rewrite lookup_insert in Hlookup. case_decide; simplify_eq.
    + simpl in Hp. apply elem_of_app in Hp as [Hp|Hp].
      * destruct (Hold c room p Hroom Hp eq_refl) as (Hbound & Hcode & Hne).
        split; [|done]. by rewrite lookup_insert_ne.
      * apply list_elem_of_singleton in Hp as ->. simpl.
        by rewrite lookup_insert_eq.
    + destruct (Hold c room' p Hlookup Hp eq_refl) as (Hbound & Hcode & Hne).
      split; [|done]. by rewrite lookup_insert_ne.
Qed.

Lemma entries_bound_other (open : nat -> bool) (w : nat) (st : State)
    (ev : Event) :
  (∀ w' requested rnd, ev ≠ Receive w' (Parsed (JoinRoom requested)) rnd) →
  entries_bound w st →
  entries_bound w (step open st ev).1.
Proof.
  intros Hother Hinv.
  destruct (step_other_state open st ev Hother)
    as [-> | [(w0 & player & room & brd & current & started & ended
                 & Hb & Hr & Hbrd & ->)
             | [(w0 & player & Hb & Hr & ->)
               | (w0 & player & room & Hb & Hr & ->)]]];
    [done| | |]; intros c room' p; simpl; intros Hlookup Hp Hw.
  - rewrite lookup_insert in Hlookup. case_decide; simplify_eq.
    + by apply (Hinv (roomCode player) room).
    + by apply (Hinv c room').
  - destruct (Hinv c room' p Hlookup Hp Hw) as [Hbound Hcode].
    split; [|done]. rewrite lookup_delete_ne; [done|].
    intros Heq. congruence.
  - assert (Hne : w0 ≠ w).
    { destruct (List.filter _ (players room)) as [|q rest] eqn:Hfilter.
      - rewrite lookup_delete in Hlookup. case_decide; simplify_eq.
        destruct (Hinv c room' p Hlookup Hp eq_refl) as [Hbound Hcode].
        intros Heq. congruence.
      - rewrite lookup_insert in Hlookup. case_decide; simplify_eq.
        + simpl in Hp. rewrite <- Hfilter in Hp.
          apply list_elem_of_In, filter_other_sockets in Hp.
          intros Heq. destruct Hp as [_ Hp]. congruence.
        + destruct (Hinv c room' p Hlookup Hp eq_refl) as [Hbound Hcode].
          intros Heq. congruence. }
    rewrite lookup_delete_ne by done.
    destruct (List.filter _ (players room)) as [|q rest] eqn:Hfilter.
    + rewrite lookup_delete in Hlookup. case_decide; simplify_eq.
      by apply (Hinv c room').
    + rewrite lookup_insert in Hlookup. case_decide; simplify_eq.
      * simpl in Hp. rewrite <- Hfilter in Hp.
        apply list_elem_of_In, filter_other_sockets in Hp as [Hp _].
        apply list_elem_of_In in Hp. by apply (Hinv (roomCode player) room).
      * by apply (Hinv c room').
Qed.

Lemma reachable_joining_once_entries_bound (w : nat) (st : State) :
  reachable_joining_once w st → entries_bound w st.
Proof.
  induction 1 as [|open st ev _ IH Hjoin].
  - intros c room p Hlookup. simpl in Hlookup.
    by rewrite lookup_empty in Hlookup.
  - assert (Hjoin_or_not :
      (∃ w' requested rnd, ev = Receive w' (Parsed (JoinRoom requested)) rnd)
      ∨ (∀ w' requested rnd, ev ≠ Receive w' (Parsed (JoinRoom requested)) rnd)).
    { destruct ev as [w' [|[]] rnd | |]; eauto. }
    destruct Hjoin_or_not as [(w' & requested & rnd & ->) | Hother].
    + simpl in *. by apply entries_bound_join.
    + by apply entries_bound_other.
Qed.

Lemma reachable_joining_once_reachable (w : nat) (st : State) :
  reachable_joining_once w st → reachable st.
Proof. induction 1; [constructor | by constructor]. Qed.

(** C7, as amended: in every state reached while connection [w] sends no
    [join_room] when it is already bound, whatever the other connections
    send, [w] has an entry in the player list of a room only if it is
    bound, and the room is the one recorded in its binding; so [w] has
    entries in at most one room. *)
Theorem one_room_per_connection (w : nat) (st : State) :
  reachable_joining_once w st →
  (∀ c, seated st w c →
        ∃ p, playerConnections st !! w = Some p ∧ roomCode p = c) ∧
  (∀ c1 c2, seated st w c1 → seated st w c2 → c1 = c2).
Proof.
  intros Hreach.
  pose proof (reachable_joining_once_entries_bound w st Hreach) as Hinv.
  assert (Hseat : ∀ c, seated st w c →
            ∃ p, playerConnections st !! w = Some p ∧ roomCode p = c).
  { intros c (room & p & Hroom & Hp & Hw).
    exists p. by apply (Hinv c room). }
  split; [done|].
  intros c1 c2 H1 H2.
  destruct (Hseat c1 H1) as (p1 & Hb1 & <-).
  destruct (Hseat c2 H2) as (p2 & Hb2 & <-).
  congruence.
Qed.

Lemma joined_twice_joining_once : reachable_joining_once 2 joined_twice.
Proof.
  apply (joining_once_step 2 all_open _
           (Receive 2 (Parsed (JoinRoom (Some "ABC123"))) "0.k2j5")).
  - apply (joining_once_step 2 all_open _
             (Receive 1 (Parsed (JoinRoom None)) "0.k2j5qq01")).
    + apply (joining_once_step 2 all_open initial
               (Receive 1 (Parsed (JoinRoom None)) "0.abc123xyz")).
      * apply joining_once_initial.
      * intros Heq. discriminate Heq.
    + intros Heq. discriminate Heq.
  - intros _. reflexivity.
Qed.

Lemma one_room_per_connection_witness :
  seated joined_twice 1 "ABC123" ∧ seated joined_twice 1 "K2J5QQ" ∧
  ∃ p, playerConnections joined_twice !! 2 = Some p ∧ roomCode p = "ABC123".
Proof.
  split.
  { exists (mkRoom "ABC123"
              [mkPlayer 0 1 "X" "ABC123"; mkPlayer 2 2 "O" "ABC123"]
              emptyBoard "X" true false), (mkPlayer 0 1 "X" "ABC123").
    split; [reflexivity|]. split; [|reflexivity].
    simpl. apply list_elem_of_In. simpl. tauto. }
  split.
  { exists (mkRoom "K2J5QQ" [mkPlayer 1 1 "X" "K2J5QQ"]
              emptyBoard "X" false false), (mkPlayer 1 1 "X" "K2J5QQ").
    split; [reflexivity|]. split; [|reflexivity].
    simpl. apply list_elem_of_In. simpl. tauto. }
  apply (proj1 (one_room_per_connection 2 joined_twice
                  joined_twice_joining_once)).
  exists (mkRoom "ABC123"
            [mkPlayer 0 1 "X" "ABC123"; mkPlayer 2 2 "O" "ABC123"]
            emptyBoard "X" true false), (mkPlayer 2 2 "O" "ABC123").
  split; [reflexivity|]. split; [|reflexivity].
  simpl. apply list_elem_of_In. simpl. tauto.
Defined.

(** C7, as stated, fails: [join_room] does not look at the binding of the
    sender.  A connection that creates a room and then sends [join_room]
    again is bound to the second room and keeps its entry in the first, so
    that it sits in two rooms. *)
Lemma second_join_seats_twice :
  let st := run [ Receive 1 (Parsed (JoinRoom None)) "0.abc123xyz";
                  Receive 1 (Parsed (JoinRoom None)) "0.k2j5qq01" ] initial in
  reachable st ∧
  seated st 1 "ABC123" ∧ seated st 1 "K2J5QQ" ∧ "ABC123" ≠ "K2J5QQ" ∧
  playerConnections st !! 1 = Some (mkPlayer 1 1 "X" "K2J5QQ").
Proof.
  split; [apply (reachable_run _ _ reachable_initial)|].
  split.
  { exists (mkRoom "ABC123" [mkPlayer 0 1 "X" "ABC123"] emptyBoard "X" false false),
           (mkPlayer 0 1 "X" "ABC123").
    split; [by vm_compute|]. split; [|done]. simpl. apply list_elem_of_In.
    simpl. tauto. }
  split.
  { exists (mkRoom "K2J5QQ" [mkPlayer 1 1 "X" "K2J5QQ"] emptyBoard "X" false false),
           (mkPlayer 1 1 "X" "K2J5QQ").
    split; [by vm_compute|]. split; [|done]. simpl. apply list_elem_of_In.
    simpl. tauto. }
  split; [done|]. by vm_compute.
Qed.

(** ** Timers that outlive their room *)

Lemma broadcast_to_missing_room_witness :
  let st := run [ Receive 1 (Parsed (JoinRoom None)) "0.abc123xyz";
                  Receive 2 (Parsed (JoinRoom (Some "ABC123"))) "0.k2j5";
                  Receive 1 (Parsed (MakeMove (KIndex 0) (KIndex 0) (KIndex 0))) "";
                  Receive 2 (Parsed (MakeMove (KIndex 1) (KIndex 0) (KIndex 0))) "";
                  Receive 1 (Parsed (MakeMove (KIndex 0) (KIndex 0) (KIndex 1))) "";
                  Receive 2 (Parsed (MakeMove (KIndex 1) (KIndex 0) (KIndex 1))) "";
                  Receive 1 (Parsed (MakeMove (KIndex 0) (KIndex 0) (KIndex 2))) "";
                  Close 1; Close 2 ] initial in
  let over := GameOver (Some "X") (Some [(0, 0, 0); (0, 0, 1); (0, 0, 2)]%nat) in
  rooms st !! "ABC123" = None ∧
  step all_open st (TimerFired "ABC123" over) = (st, []).
Proof.
  intros st over.
  assert (Hgone : rooms st !! "ABC123" = None) by (by vm_compute).
  split; [exact Hgone|].
  exact (proj2 (proj2 (broadcast_to_missing_room all_open st "ABC123" over
                         None Hgone))).
Defined.

(** The timer of that run is the one set by the winning move. *)
Example winning_move_sets_timer :
  let st := run [ Receive 1 (Parsed (JoinRoom None)) "0.abc123xyz";
                  Receive 2 (Parsed (JoinRoom (Some "ABC123"))) "0.k2j5";
                  Receive 1 (Parsed (MakeMove (KIndex 0) (KIndex 0) (KIndex 0))) "";
                  Receive 2 (Parsed (MakeMove (KIndex 1) (KIndex 0) (KIndex 0))) "";
                  Receive 1 (Parsed (MakeMove (KIndex 0) (KIndex 0) (KIndex 1))) "";
                  Receive 2 (Parsed (MakeMove (KIndex 1) (KIndex 0) (KIndex 1))) "" ]
             initial in
  (onMessage all_open st 1
     (Parsed (MakeMove (KIndex 0) (KIndex 0) (KIndex 2))) "").2
  = [ Send 1 (MoveMade (KIndex 0) (KIndex 0) (KIndex 2) "X" "X");
      Send 2 (MoveMade (KIndex 0) (KIndex 0) (KIndex 2) "X" "X");
      SetTimeout 500 "ABC123"
        (GameOver (Some "X") (Some [(0, 0, 0); (0, 0, 1); (0, 0, 2)]%nat)) ].
Proof. by vm_compute. Qed.

(** ** Moves off the grid *)

Lemma array_get_outside {A : Type} (inj : A -> JsValue) (a : list A) (z : Z) :
  (z < 0 ∨ Z.of_nat (length a) <= z)%Z → array_get inj a (KIndex z) = VUndefined.
Proof.
  intros Hz. unfold array_get.
  destruct (0 <=? z)%Z eqn:Hsign; [|done].
  apply Z.leb_le in Hsign.
  rewrite (proj2 (lookup_ge_None a (Z.to_nat z))); [done | lia].
Qed.

Lemma array_get_inside {A : Type} (inj : A -> JsValue) (a : list A) (z : Z) :
  (0 <= z < Z.of_nat (length a))%Z →
  ∃ x, a !! Z.to_nat z = Some x ∧ array_get inj a (KIndex z) = inj x.
Proof.
  intros Hz. unfold array_get.
  rewrite (proj2 (Z.leb_le 0 z)) by lia.
  destruct (lookup_lt_is_Some_2 a (Z.to_nat z)) as [x Hx]; [lia|].
  exists x. by rewrite Hx.
Qed.

(** X16: in a reachable state, a move of the player whose turn it is
    whose indices are integers, one of them outside the grid, is refused
    and changes nothing: reading the cell yields [undefined], or throws and
    the exception is answered at the message boundary. *)
Lemma make_move_off_grid (open : nat -> bool) (st : State) (w : nat)
    (player : Player) (room : Room) (l r c : Z) (rnd : string) :
  reachable st →
  playerConnections st !! w = Some player →
  rooms st !! roomCode player = Some room →
  gameStarted room = true → gameEnded room = false →
  currentPlayer room = symbol player →
  ¬ (0 <= l < 3 ∧ 0 <= r < 3 ∧ 0 <= c < 3)%Z →
  onMessage open st w (Parsed (MakeMove (KIndex l) (KIndex r) (KIndex c))) rnd
  = (st, [Send w (Error "Cell already taken")])
  ∨ onMessage open st w (Parsed (MakeMove (KIndex l) (KIndex r) (KIndex c))) rnd
    = (st, [Send w (Error "Invalid message format")]).
Proof.
  intros Hreach Hbound Hroom Hstarted Hended Hturn Hout.
  destruct (reachable_boards_shaped st Hreach _ _ Hroom) as [Hlen Hlayers].
  simpl. unfold handleMakeMove.
  rewrite Hbound, Hroom, Hstarted, Hended. simpl.
  rewrite Hturn, String.eqb_refl. simpl.
  unfold read_cell. cbn [get_prop].
  destruct (decide (0 <= l < 3)%Z) as [Hl|Hl].
  - destruct (array_get_inside VLayer (board room) l) as (layer & Hlayer & ->);
      [lia|]. cbn [get_prop].
    rewrite Forall_forall in Hlayers.
    destruct (Hlayers layer) as [Hlen' Hrows].
    { apply list_elem_of_In. by eapply list_elem_of_lookup_2. }
    destruct (decide (0 <= r < 3)%Z) as [Hr|Hr].
    + destruct (array_get_inside VRow layer r) as (row & Hrow & ->); [lia|].
      cbn [get_prop]. rewrite Forall_forall in Hrows.
      assert (length row = 3%nat) as Hlen''.
      { apply Hrows. apply list_elem_of_In. by eapply list_elem_of_lookup_2. }
      rewrite array_get_outside by lia. by left.
    + rewrite array_get_outside by lia. by right.
  - rewrite array_get_outside by lia. by right.
Qed.

(** The two ways in which [board[layer][row][col]] reads as ['']. *)
Lemma read_empty_cases (b : Board) (layer row col : JsKey) :
  read_cell b layer row col = Return (VString "") →
  (∃ l r c : nat,
     layer = KIndex (Z.of_nat l) ∧ row = KIndex (Z.of_nat r) ∧
     col = KIndex (Z.of_nat c) ∧ cell_at b (l, r, c) = Some "")
  ∨ (layer = KConstructor ∧ row = KProto ∧ col = KName).
Proof.
  unfold read_cell.
  destruct layer as [l| | |]; simpl.
  - destruct (0 <=? l)%Z eqn:Hl; [|done]. apply Z.leb_le in Hl.
    destruct (b !! Z.to_nat l) as [layer|] eqn:Hlayer; [|done]. simpl.
    destruct row as [r| | |]; simpl.
    + destruct (0 <=? r)%Z eqn:Hr; [|done]. apply Z.leb_le in Hr.
      destruct (layer !! Z.to_nat r) as [cells|] eqn:Hcells; [|done]. simpl.
      destruct col as [c| | |]; simpl; try done.
      destruct (0 <=? c)%Z eqn:Hc; [|done]. apply Z.leb_le in Hc.
      destruct (cells !! Z.to_nat c) as [v|] eqn:Hv; [|done].
      intros [= ->]. left. exists (Z.to_nat l), (Z.to_nat r), (Z.to_nat c).
      rewrite !Z2Nat.id by done. repeat split; try done.
      unfold cell_at. by rewrite Hlayer, Hcells.
    + destruct col; simpl; done.
    + destruct col; simpl; done.
    + done.
  - destruct row, col; simpl; done.
  - destruct row, col; simpl; try done; [by right|].
    destruct (0 <=? z)%Z; [|done]. repeat case_match; done.
  - done.
Qed.

(** C10 fails on the code at the move [{layer: 'constructor',
    row: '__proto__', col: 'name'}]: [board.constructor.__proto__.name] is
    [Function.prototype.name], the empty string, so the cell counts as
    free; nothing is written on the board, and yet the turn passes to O
    and [move_made] goes to both players. *)
Theorem make_move_prototype_chain_passes_turn :
  let p1 := mkPlayer 0 1 "X" "ABC123" in
  let p2 := mkPlayer 1 2 "O" "ABC123" in
  let r := onMessage all_open two_players 1
             (Parsed (MakeMove KConstructor KProto KName)) "" in
  reachable two_players ∧
  playerConnections two_players !! 1 = Some p1 ∧
  rooms two_players !! "ABC123"
  = Some (mkRoom "ABC123" [p1; p2] emptyBoard "X" true false) ∧
  read_cell emptyBoard KConstructor KProto KName = Return (VString "") ∧
  rooms r.1 !! "ABC123"
  = Some (mkRoom "ABC123" [p1; p2] emptyBoard "O" true false) ∧
  r.1 ≠ two_players ∧
  r.2 = [ Send 1 (MoveMade KConstructor KProto KName "X" "O");
          Send 2 (MoveMade KConstructor KProto KName "X" "O") ].
Proof.
  split; [apply (reachable_run _ _ reachable_initial)|].
  repeat split; by vm_compute.
Qed.

(** C4 fails on the code at the payload [{type: 'make_move',
    layer: 'constructor', row: '__proto__', col: 'name'}], which parses
    and names no cell: sent by O when it is O's turn, it is answered by no
    error reply; [move_made] goes to both players and the turn passes to
    X, while the board stays as it was. *)
Theorem malformed_move_gets_no_error_reply :
  let p1 := mkPlayer 0 1 "X" "ABC123" in
  let p2 := mkPlayer 1 2 "O" "ABC123" in
  let b := set_cell emptyBoard (1, 1, 1)%nat "X" in
  let r := onMessage all_open centre_taken 2
             (Parsed (MakeMove KConstructor KProto KName)) "" in
  reachable centre_taken ∧
  playerConnections centre_taken !! 2 = Some p2 ∧
  rooms centre_taken !! "ABC123"
  = Some (mkRoom "ABC123" [p1; p2] b "O" true false) ∧
  (∀ to text, ¬ In (Send to (Error text)) r.2) ∧
  r.2 = [ Send 1 (MoveMade KConstructor KProto KName "O" "X");
          Send 2 (MoveMade KConstructor KProto KName "O" "X") ] ∧
  rooms r.1 !! "ABC123" = Some (mkRoom "ABC123" [p1; p2] b "X" true false) ∧
  r.1 ≠ centre_taken.
Proof.
  split; [apply (reachable_run _ _ (reachable_run _ _ reachable_initial))|].
  split; [by vm_compute|]. split; [by vm_compute|].
  split.
  { intros to text H. vm_compute in H. by destruct H as [H | [H | []]]. }
  repeat split; by vm_compute.
Qed.

(** * Further properties *)

(** ** [checkDraw] *)

Lemma board_shape_cells (b : Board) (c : Coord) :
  board_shape b → is_Some (cell_at b c) ↔ in_grid c.
Proof.
  intros Hshape. split; [|by apply board_shape_cell].
  destruct c as [[l r] k]. destruct Hshape as [Hlen Hlayers].
  intros [v Hv]. unfold cell_at in Hv.
  destruct (b !! l) as [layer|] eqn:Hlayer; [|done].
  destruct (layer !! r) as [row|] eqn:Hrow; [|done].
  rewrite Forall_forall in Hlayers.
  destruct (Hlayers layer) as [Hlen' Hrows].
  { apply list_elem_of_In. by eapply list_elem_of_lookup_2. }
  rewrite Forall_forall in Hrows.
  assert (length row = 3%nat) as Hlen''.
  { apply Hrows, list_elem_of_In. by eapply list_elem_of_lookup_2. }
  apply lookup_lt_Some in Hlayer, Hrow, Hv. simpl. lia.
Qed.

(** X1: [checkDraw] answers true exactly when no cell of the board is
    empty, and false exactly when some cell is empty; on a 3x3x3 board the
    cells are the 27 coordinates of the grid. *)
Theorem checkDraw_no_empty_cell (b : Board) :
  (checkDraw b = true ↔ ∀ c v, cell_at b c = Some v → v ≠ "") ∧
  (checkDraw b = false ↔ ∃ c, cell_at b c = Some "") ∧
  (board_shape b →
   (checkDraw b = true ↔
    ∀ c, in_grid c → ∃ v, cell_at b c = Some v ∧ v ≠ "") ∧
   (checkDraw b = false ↔ ∃ c, in_grid c ∧ cell_at b c = Some "")).
Proof.
  split; [apply checkDraw_true|]. split; [apply checkDraw_false|].
  intros Hshape. split.
  - rewrite checkDraw_true. split.
    + intros H c Hc.
      destruct (board_shape_cell b c Hshape Hc) as [v Hv].
      exists v. split; [done|]. by apply (H c).
    + intros H c v Hv.
      destruct (H c) as (v' & Hv' & Hne).
      { apply (board_shape_cells b c Hshape). eauto. }
      congruence.
  - rewrite checkDraw_false. split.
    + intros [c Hc]. exists c. split; [|done].
      apply (board_shape_cells b c Hshape). eauto.
    + intros (c & _ & Hc). eauto.
Qed.

Lemma checkDraw_no_empty_cell_witness :
  checkDraw (set_cell emptyBoard (1, 1, 1)%nat "X") = false ↔
  ∃ c, in_grid c ∧ cell_at (set_cell emptyBoard (1, 1, 1)%nat "X") c = Some "".
Proof.
  apply (proj2 (proj2 (checkDraw_no_empty_cell
                         (set_cell emptyBoard (1, 1, 1)%nat "X")))).
  apply set_cell_shape, emptyBoard_shape.
Defined.

(** ** A move completes lines for the mover only *)

(** X2: writing a symbol on a cell completes no line for another symbol:
    a line that is full for [t] after [s] was written, with [s] different
    from [t], was full for [t] before; hence [checkWin] for [t], if it
    found nothing before the write, finds nothing after it. *)
Theorem write_completes_own_lines_only
    (b : Board) (c : Coord) (s t : string) :
  s ≠ t →
  (∀ line, line_full (set_cell b c s) t line → line_full b t line) ∧
  (checkWin b t = None → checkWin (set_cell b c s) t = None).
Proof.
  intros Hst.
  assert (Hline : ∀ line, line_full (set_cell b c s) t line → line_full b t line).
  { intros line [Ht Hcells]. split; [done|].
    rewrite Forall_forall in Hcells |- *. intros c' Hc'.
    specialize (Hcells c' Hc'). rewrite cell_at_set_cell in Hcells.
    destruct (decide (c = c')) as [->|]; [|done].
    destruct (cell_at b c'); [|done]. congruence. }
  split; [done|].
  rewrite !checkWin_None. intros Hnone line Hin Hfull.
  apply (Hnone line Hin). by apply Hline.
Qed.

Lemma write_completes_own_lines_only_witness :
  checkWin (set_cell emptyBoard (0, 0, 0)%nat "X") "O" = None.
Proof.
  apply (proj2 (write_completes_own_lines_only emptyBoard (0, 0, 0)%nat "X" "O"
                  ltac:(discriminate))).
  reflexivity.
Defined.

(** ** Room codes are short and upper case *)









(** ** Broadcasts are sends to each player *)

(** X4: [broadcastToRoom] issues what [sendToPlayer] would issue for each
    player of the room, in the order of the player list, skipping the
    excluded player object; with nobody excluded and every socket of the
    room open, each player gets the message exactly once. *)
Theorem broadcastToRoom_sendToPlayer (open : nat -> bool) (st : State)
    (target : string) (room : Room) (m : OutMsg) :
  rooms st !! target = Some room →
  (∀ excludePlayer,
     broadcastToRoom open st target m excludePlayer
     = flat_map (fun p => sendToPlayer open p m)
         (List.filter (fun p =>
            match excludePlayer with
            | Some e => negb (pid p =? pid e)%nat
            | None => true
            end) (players room))) ∧
  (Forall (fun p => open (ws p) = true) (players room) →
   broadcastToRoom open st target m None
   = map (fun p => Send (ws p) m) (players room)).
Proof.
  intros Hroom. split.
  - intros excludePlayer. unfold broadcastToRoom. rewrite Hroom.
    induction (players room) as [|p ps IH]; simpl; [done|].
    destruct (match excludePlayer with
              | Some e => negb (pid p =? pid e)%nat
              | None => true
              end); simpl; [|exact IH].
    unfold sendToPlayer at 1.
    destruct (open (ws p)); simpl; [by f_equal | exact IH].
  - intros Hopen. unfold broadcastToRoom. rewrite Hroom.
    induction Hopen as [|p ps Hp _ IH]; simpl; [done|].
    rewrite Hp. simpl. f_equal. exact IH.
Qed.

Lemma broadcastToRoom_sendToPlayer_witness :
  broadcastToRoom all_open two_players "ABC123" (GameStart "X") None
  = [Send 1 (GameStart "X"); Send 2 (GameStart "X")].
Proof.
  apply (proj2 (broadcastToRoom_sendToPlayer all_open two_players "ABC123"
                  (mkRoom "ABC123"
                     [mkPlayer 0 1 "X" "ABC123"; mkPlayer 1 2 "O" "ABC123"]
                     emptyBoard "X" true false)
                  (GameStart "X") eq_refl)).
  repeat constructor.
Defined.

(** ** The handlers, case by case *)

Lemma handleJoinRoom_cases (open : nat -> bool) (st : State) (w : nat)
    (requested : option string) (rnd : string) :
  (∃ c room, requested = Some c ∧ c ≠ "" ∧ rooms st !! c = Some room ∧
             (2 <= length (players room))%nat ∧
             handleJoinRoom open st w requested rnd
             = (st, [Send w (Error "Room is full")]))
  ∨ (creates_room st requested ∧
     (handleJoinRoom open st w requested rnd).1
     = mkState
         (<[generateRoomCode rnd :=
              mkRoom (generateRoomCode rnd)
                [mkPlayer (allocated st) w "X" (generateRoomCode rnd)]
                emptyBoard "X" false false]> (rooms st))
         (<[w := mkPlayer (allocated st) w "X" (generateRoomCode rnd)]>
            (playerConnections st))
         (S (allocated st)))
  ∨ (∃ c room, requested = Some c ∧ c ≠ "" ∧ rooms st !! c = Some room ∧
       (length (players room) < 2)%nat ∧
       let player :=
         mkPlayer (allocated st) w
           (if (length (players room) =? 0)%nat then "X" else "O") c in
       (handleJoinRoom open st w requested rnd).1
       = mkState
           (<[c := mkRoom (code room) (players room ++ [player]) (board room)
                     (currentPlayer room)
                     (if (length (players room) =? 1)%nat then true
                      else gameStarted room)
                     (gameEnded room)]> (rooms st))
           (<[w := player]> (playerConnections st))
           (S (allocated st))).
Proof.
  assert (Hcases : creates_room st requested
            ∨ ∃ c room, requested = Some c ∧ c ≠ "" ∧ rooms st !! c = Some room).
  { destruct requested as [c|]; [|by left]. simpl.
    destruct (decide (c = "")) as [->|Hc]; [by left; left|].
    destruct (rooms st !! c) as [room|] eqn:Hlookup; [|by left; right].
    right. eauto. }
  destruct Hcases as [Hcreates | (c & room & -> & Hc & Hlookup)].
  { right. left. split; [done|]. by rewrite handleJoinRoom_creates. }
  destruct (decide (2 <= length (players room))%nat) as [Hfull|Hroom].
  - left. exists c, room. repeat split; try done.
    unfold handleJoinRoom. apply String.eqb_neq in Hc. rewrite Hc, Hlookup.
    by rewrite (proj2 (Nat.leb_le _ _) Hfull).
  - right. right. exists c, room. repeat split; try done; [lia|].
    unfold handleJoinRoom. apply String.eqb_neq in Hc. rewrite Hc, Hlookup.
    rewrite (proj2 (Nat.leb_gt _ _)) by lia. cbv zeta.
    cbn [players]. rewrite length_app. cbn [length].
    replace (length (players room) + 1 =? 2)%nat
      with (length (players room) =? 1)%nat
      by (destruct (length (players room)) as [|[|[|n]]]; done).
    destruct (length (players room) =? 1)%nat; simpl.
    + by rewrite insert_insert_eq.
    + done.
Qed.

Lemma handleMakeMove_cases (open : nat -> bool) (st : State) (w : nat)
    (layer row col : JsKey) (r : State * list Effect) :
  handleMakeMove open st w layer row col = Return r →
  r.1 = st
  ∨ ∃ player room,
      playerConnections st !! w = Some player ∧
      rooms st !! roomCode player = Some room ∧
      gameStarted room = true ∧ gameEnded room = false ∧
      currentPlayer room = symbol player ∧
      read_cell (board room) layer row col = Return (VString "") ∧
      ∃ ended : bool,
        r.1 = with_rooms st
                (<[roomCode player :=
                     mkRoom (code room) (players room)
                       (assign_cell (board room) layer row col (symbol player))
                       (if ended then currentPlayer room
                        else otherPlayer (currentPlayer room))
                       true ended]> (rooms st)).
Proof.
  unfold handleMakeMove.
  destruct (playerConnections st !! w) as [player|] eqn:Hbound;
    [|intros [= <-]; by left].
  destruct (rooms st !! roomCode player) as [room|] eqn:Hroom;
    [|intros [= <-]; by left].
  destruct (gameStarted room) eqn:Hstarted; simpl;
    [|intros [= <-]; by left].
  destruct (gameEnded room) eqn:Hended; simpl;
    [intros [= <-]; by left|].
  destruct (currentPlayer room =? symbol player) eqn:Hturn; simpl;
    [|intros [= <-]; by left].
  apply String.eqb_eq in Hturn.
  destruct (read_cell (board room) layer row col) as [v|] eqn:Hread; [|done].
  destruct (not_empty_string v) eqn:Hv; [intros [= <-]; by left|].
  assert (v = VString "") as ->.
  { destruct v; try done. simpl in Hv.
    apply negb_false_iff, String.eqb_eq in Hv. by subst. }
  cbv zeta.
  destruct (bool_decide _ || _); intros [= <-]; right;
    exists player, room; repeat split; try done.
  - by exists true.
  - by exists false.
Qed.

Lemma handleNewGame_cases (open : nat -> bool) (st : State) (w : nat) :
  handleNewGame open st w = (st, [])
  ∨ ∃ player room,
      playerConnections st !! w = Some player ∧
      rooms st !! roomCode player = Some room ∧
      (2 <= length (players room))%nat ∧
      handleNewGame open st w
      = (with_rooms st
           (<[roomCode player :=
                mkRoom (code room) (players room) emptyBoard "X" true false]>
              (rooms st)),
         to_open_players open (players room) (GameStart "X")).
Proof.
  unfold handleNewGame.
  destruct (playerConnections st !! w) as [player|] eqn:Hbound; [|by left].
  destruct (rooms st !! roomCode player) as [room|] eqn:Hroom; [|by left].
  destruct (length (players room) <? 2)%nat eqn:Hlen; [by left|].
  right. exists player, room. apply Nat.ltb_ge in Hlen.
  repeat split; try done.
  erewrite broadcastToRoom_room by (simpl; apply lookup_insert_eq). done.
Qed.

Lemma handleDisconnect_cases (open : nat -> bool) (st : State) (w : nat) :
  (playerConnections st !! w = None ∧ handleDisconnect open st w = (st, []))
  ∨ (∃ player,
       playerConnections st !! w = Some player ∧
       rooms st !! roomCode player = None ∧
       handleDisconnect open st w
       = (mkState (rooms st) (delete w (playerConnections st)) (allocated st),
          []))
  ∨ (∃ player room,
       playerConnections st !! w = Some player ∧
       rooms st !! roomCode player = Some room ∧
       handleDisconnect open st w
       = (mkState
            (match List.filter (fun p => negb (ws p =? w)%nat) (players room) with
             | [] => delete (roomCode player) (rooms st)
             | _ :: _ =>
                 <[roomCode player :=
                     mkRoom (code room)
                       (List.filter (fun p => negb (ws p =? w)%nat) (players room))
                       (board room) (currentPlayer room) false false]> (rooms st)
             end)
            (delete w (playerConnections st))
            (allocated st),
          to_open_players open
            (List.filter (fun p => negb (ws p =? w)%nat) (players room))
            (PlayerLeft (symbol player)))).
Proof.
  destruct (playerConnections st !! w) as [player|] eqn:Hbound.
  - destruct (rooms st !! roomCode player) as [room|] eqn:Hroom.
    + right. right. exists player, room.
      by rewrite (handleDisconnect_room open st w player room).
    + right. left. exists player.
      by rewrite (handleDisconnect_no_room open st w player).
  - left. by rewrite handleDisconnect_unbound.
Qed.

(** ** Rooms of one or two players, over three letters *)

Lemma set_cell_cells (b : Board) (c : Coord) (v : string) :
  is_cell v → board_cells b → board_cells (set_cell b c v).
Proof.
  destruct c as [[l r] k]. intros Hv Hb. unfold set_cell, board_cells.
  apply Forall_alter; [done|]. intros layer _ Hlayer.
  apply Forall_alter; [done|]. intros row _ Hrow.
  by apply Forall_insert.
Qed.

Lemma assign_cell_cells (b : Board) (layer row col : JsKey) (v : string) :
  is_cell v → board_cells b → board_cells (assign_cell b layer row col v).
Proof.
  intros Hv Hb. unfold assign_cell.
  destruct layer, row, col; try done.
  destruct (_ && _); [by apply set_cell_cells | done].
Qed.

Lemma emptyBoard_cells : board_cells emptyBoard.
Proof. repeat constructor. Qed.

Lemma filter_length_le {A : Type} (f : A -> bool) (l : list A) :
  (length (List.filter f l) <= length l)%nat.
Proof.
  induction l as [|a l IH]; simpl; [done|]. destruct (f a); simpl; lia.
Qed.

Lemma is_symbol_cell (s : string) : is_symbol s → is_cell s.
Proof. intros [-> | ->]; unfold is_cell; auto. Qed.

Lemma otherPlayer_symbol (s : string) : is_symbol (otherPlayer s).
Proof. unfold otherPlayer, is_symbol. destruct (s =? "X"); auto. Qed.

Lemma consistent_update (st : State) (c : string) (room' : Room) :
  rooms_consistent st → bindings_sound st →
  room_sized room' → room_lettered room' →
  (∀ p, In p (players room') → (pid p < allocated st)%nat) →
  rooms_consistent (with_rooms st (<[c := room']> (rooms st))) ∧
  bindings_sound (with_rooms st (<[c := room']> (rooms st))).
Proof.
  intros Hrooms [Hbind Hentries] Hsized Hlettered Hpids. split; [|split].
  - intros c' room. simpl. rewrite lookup_insert.
    case_decide; [intros [= <-]; done | apply Hrooms].
  - done.
  - intros c' room p. simpl. rewrite lookup_insert.
    case_decide; [intros [= <-]; apply Hpids | apply Hentries].
Qed.

Lemma consistent_join (st : State) (w : nat) (c : string) (room' : Room)
    (player : Player) :
  rooms_consistent st → bindings_sound st →
  room_sized room' → room_lettered room' →
  (∀ p, In p (players room') → (pid p < S (allocated st))%nat) →
  ws player = w → is_symbol (symbol player) → pid player = allocated st →
  rooms_consistent
    (mkState (<[c := room']> (rooms st)) (<[w := player]> (playerConnections st))
       (S (allocated st))) ∧
  bindings_sound
    (mkState (<[c := room']> (rooms st)) (<[w := player]> (playerConnections st))
       (S (allocated st))).
Proof.
  intros Hrooms [Hbind Hentries] Hsized Hlettered Hpids Hws Hsym Hpid.
  split; [|split].
  - intros c' room. simpl. rewrite lookup_insert.
    case_decide; [intros [= <-]; done | apply Hrooms].
  - intros w' p. simpl. rewrite lookup_insert.
    case_decide.
    + intros [= <-]. subst. repeat split; try done. lia.
    + intros Hp. destruct (Hbind w' p Hp) as (? & ? & ?).
      repeat split; try done. lia.
  - intros c' room p. simpl. rewrite lookup_insert.
    case_decide; [intros [= <-]; apply Hpids|].
    intros Hroom Hp. specialize (Hentries c' room p Hroom Hp). lia.
Qed.

Lemma consistent_step (open : nat -> bool) (st : State) (ev : Event) :
  rooms_consistent st → bindings_sound st →
  rooms_consistent (step open st ev).1 ∧ bindings_sound (step open st ev).1.
Proof.
  intros Hrooms Hsound.
  assert (Hleave : ∀ w, rooms_consistent (handleDisconnect open st w).1
                        ∧ bindings_sound (handleDisconnect open st w).1).
  { intros w.
    destruct (handleDisconnect_cases open st w)
      as [[_ ->] | [(player & Hb & Hr & ->) | (player & room & Hb & Hr & ->)]];
      [done| |]; destruct Hsound as [Hbind Hentries]; simpl.
    - split; [done|]. split; [|done]. intros w' p. simpl.
      rewrite lookup_delete. case_decide; [done | apply Hbind].
    - destruct (Hrooms _ _ Hr) as [(Hlen & Hstart & Hend) (Hsyms & Hcur & Hcells)].
      pose proof (filter_length_le (fun p => negb (ws p =? w)%nat) (players room))
        as Hle.
      split; [|split].
      + intros c' room'. simpl.
        destruct (List.filter _ (players room)) as [|q rest] eqn:Hfilter.
        * rewrite lookup_delete. case_decide; [done | apply Hrooms].
        * rewrite lookup_insert. case_decide; [|apply Hrooms].
          intros [= <-]. split.
          -- repeat split; simpl in *; try done; lia.
          -- repeat split; simpl; try done. rewrite <- Hfilter.
             rewrite Forall_forall in Hsyms |- *. intros p Hp.
             apply filter_In in Hp as [Hp _]. by apply Hsyms.
      + intros w' p. simpl. rewrite lookup_delete.
        case_decide; [done | apply Hbind].
      + intros c' room' p. simpl.
        destruct (List.filter _ (players room)) as [|q rest] eqn:Hfilter.
        * rewrite lookup_delete. case_decide; [done | apply Hentries].
        * rewrite lookup_insert. case_decide; [|apply Hentries].
          intros [= <-]. cbn [players]. rewrite <- Hfilter.
          intros Hp. apply filter_In in Hp as [Hp _].
          by apply (Hentries _ _ p Hr). }
  destruct ev as [w data rnd | w | target m]; simpl; [|apply Hleave|done].
  destruct data as [|message]; [done|]. simpl.
  destruct message; simpl; try done.
  - destruct (handleJoinRoom_cases open st w requested rnd)
      as [(c & room & _ & _ & _ & _ & ->)
         | [[_ ->] | (c & room & _ & _ & Hr & Hlt & ->)]]; [done| |].
    + apply consistent_join; try done.
      * repeat split; simpl; try done; lia.
      * repeat split; simpl; [repeat constructor; by left | by left
                              | apply emptyBoard_cells].
      * intros p [<- | []]. simpl. lia.
      * by left.
    + destruct (Hrooms _ _ Hr) as [(Hlen & Hstart & Hend) (Hsyms & Hcur & Hcells)].
      assert (Hsym : is_symbol
                (if (length (players room) =? 0)%nat then "X" else "O"))
        by (destruct (_ =? 0)%nat; [by left | by right]).
      apply consistent_join; try done.
      * repeat split; simpl; rewrite ?length_app; simpl; try lia.
        all: destruct (length (players room) =? 1)%nat eqn:H1;
          [apply Nat.eqb_eq in H1|]; intros Hs; try done; try lia;
          try (specialize (Hstart Hs); lia);
          try (specialize (Hstart (Hend Hs)); lia).
      * repeat split; simpl; try done.
        apply Forall_app. split; [done|].
        apply Forall_cons; [exact Hsym | apply Forall_nil].
      * intros p Hp. simpl in Hp. apply in_app_or in Hp as [Hp | [<- | []]].
        -- destruct Hsound as [_ Hentries].
           specialize (Hentries _ _ p Hr Hp). lia.
        -- simpl. lia.
  - destruct (handleMakeMove open st w layer row col) as [r|] eqn:Hmove;
      [|done].
    apply handleMakeMove_cases in Hmove
      as [-> | (player & room & Hb & Hr & Hstarted & Hended & Hturn & _
                 & ended & ->)]; [done|].
    destruct (Hrooms _ _ Hr) as [(Hlen & Hstart & Hend) (Hsyms & Hcur & Hcells)].
    pose proof Hsound as [Hbind Hentries].
    destruct (Hbind _ _ Hb) as (_ & Hsym & _).
    apply consistent_update; try done.
    + repeat split; simpl; try done; try lia. intros _. by apply Hstart.
    + repeat split; simpl; try done.
      * destruct ended; [done | apply otherPlayer_symbol].
      * apply assign_cell_cells; [by apply is_symbol_cell | done].
    + simpl. intros p Hp. by apply (Hentries _ _ p Hr).
  - destruct (handleNewGame_cases open st w)
      as [-> | (player & room & Hb & Hr & Hlen2 & ->)]; [done|].
    destruct (Hrooms _ _ Hr) as [(Hlen & Hstart & Hend) (Hsyms & Hcur & Hcells)].
    pose proof Hsound as [Hbind Hentries].
    apply consistent_update; try done.
    + repeat split; simpl; try done; lia.
    + repeat split; simpl; try done; [by left | apply emptyBoard_cells].
    + simpl. intros p Hp. by apply (Hentries _ _ p Hr).
  - unfold handleChatMessage. by destruct (playerConnections st !! w).
Qed.

Lemma reachable_consistent (st : State) :
  reachable st → rooms_consistent st ∧ bindings_sound st.
Proof.
  induction 1 as [|open st ev _ [IHr IHb]].
  - split; [|split].
    + intros c room H. simpl in H. by rewrite lookup_empty in H.
    + intros w p H. simpl in H. by rewrite lookup_empty in H.
    + intros c room p H. simpl in H. by rewrite lookup_empty in H.
  - by apply consistent_step.
Qed.

(** X5: in every reachable state, every room of the registry has one or
    two players, its game is started only if it has two players, and is
    ended only if it is started. *)
Theorem reachable_rooms_sized (st : State) (c : string) (room : Room) :
  reachable st → rooms st !! c = Some room →
  (1 <= length (players room) <= 2)%nat ∧
  (gameStarted room = true → length (players room) = 2%nat) ∧
  (gameEnded room = true → gameStarted room = true).
Proof.
  intros Hreach Hroom.
  destruct (reachable_consistent st Hreach) as [Hrooms _].
  by destruct (Hrooms c room Hroom).
Qed.

(** X6: in every reachable state, the symbol of every player and of every
    binding is X or O, the turn of every room is X or O, every cell of
    every board is empty, X or O, and every binding is stored under its own
    connection. *)
Theorem reachable_letters (st : State) :
  reachable st →
  (∀ c room, rooms st !! c = Some room →
     Forall (fun p => is_symbol (symbol p)) (players room) ∧
     is_symbol (currentPlayer room) ∧ board_cells (board room)) ∧
  (∀ w p, playerConnections st !! w = Some p →
          ws p = w ∧ is_symbol (symbol p)).
Proof.
  intros Hreach.
  destruct (reachable_consistent st Hreach) as [Hrooms [Hbind _]].
  split.
  - intros c room Hroom. by destruct (Hrooms c room Hroom).
  - intros w p Hp. by destruct (Hbind w p Hp) as (? & ? & _).
Qed.

Lemma two_players_reachable : reachable two_players.
Proof. apply (reachable_run _ _ reachable_initial). Qed.

Lemma make_move_off_grid_witness :
  onMessage all_open two_players 1
    (Parsed (MakeMove (KIndex 3) (KIndex 0) (KIndex 0))) ""
  = (two_players, [Send 1 (Error "Cell already taken")])
  ∨ onMessage all_open two_players 1
      (Parsed (MakeMove (KIndex 3) (KIndex 0) (KIndex 0))) ""
    = (two_players, [Send 1 (Error "Invalid message format")]).
Proof.
  apply (make_move_off_grid all_open two_players 1
           (mkPlayer 0 1 "X" "ABC123")
           (mkRoom "ABC123"
              [mkPlayer 0 1 "X" "ABC123"; mkPlayer 1 2 "O" "ABC123"]
              emptyBoard "X" true false)
           3 0 0 "" two_players_reachable eq_refl eq_refl eq_refl eq_refl
           eq_refl).
  lia.
Defined.

Lemma reachable_rooms_sized_witness :
  ∃ room, rooms two_players !! "ABC123" = Some room ∧
          gameStarted room = true ∧ length (players room) = 2%nat.
Proof.
  exists (mkRoom "ABC123"
            [mkPlayer 0 1 "X" "ABC123"; mkPlayer 1 2 "O" "ABC123"]
            emptyBoard "X" true false).
  split; [reflexivity|]. split; [reflexivity|].
  apply (proj1 (proj2 (reachable_rooms_sized two_players "ABC123" _
                         two_players_reachable eq_refl))).
  reflexivity.
Defined.

Lemma reachable_letters_witness :
  playerConnections two_players !! 2 = Some (mkPlayer 1 2 "O" "ABC123") ∧
  is_symbol "O".
Proof.
  split; [reflexivity|].
  exact (proj2 (proj2 (reachable_letters two_players two_players_reachable)
                  2 (mkPlayer 1 2 "O" "ABC123") eq_refl)).
Defined.

(** ** Joining a room that exists *)

(** X7: in a reachable state, a [join_room] that names a room with a free
    seat finds exactly one player there; the sender becomes O whatever the
    symbol of that player, the game starts at once with the board and the
    turn that the room had, [room_joined] goes to the sender,
    [player_joined] to the player already there and [game_start] to
    both. *)
Theorem join_existing_room (open : nat -> bool) (st : State) (w : nat)
    (c : string) (room : Room) (rnd : string) :
  reachable st → c ≠ "" → rooms st !! c = Some room →
  (length (players room) < 2)%nat →
  let player := mkPlayer (allocated st) w "O" c in
  length (players room) = 1%nat ∧ gameStarted room = false ∧
  gameEnded room = false ∧
  handleJoinRoom open st w (Some c) rnd
  = (mkState
       (<[c := mkRoom (code room) (players room ++ [player]) (board room)
                 (currentPlayer room) true false]> (rooms st))
       (<[w := player]> (playerConnections st))
       (S (allocated st)),
     (Send w (RoomJoined c "O")
      :: to_open_players open (players room) (PlayerJoined "O")
      ++ to_open_players open (players room ++ [player])
           (GameStart (currentPlayer room)))%list).
Proof.
  intros Hreach Hc Hroom Hlt player.
  destruct (reachable_consistent st Hreach) as [Hrooms [_ Hentries]].
  destruct (Hrooms c room Hroom) as [(Hlen & Hstart & Hend) _].
  assert (Hone : length (players room) = 1%nat) by lia.
  assert (Hstarted : gameStarted room = false).
  { destruct (gameStarted room); [|done]. specialize (Hstart eq_refl). lia. }
  assert (Hended : gameEnded room = false).
  { destruct (gameEnded room); [|done]. specialize (Hend eq_refl). congruence. }
  split; [done|]. split; [done|]. split; [done|].
  destruct (players room) as [|p0 [|p1 rest]] eqn:Hplayers; try done.
  assert (Hp0 : (pid p0 =? allocated st)%nat = false).
  { apply Nat.eqb_neq. specialize (Hentries c room p0 Hroom).
    rewrite Hplayers in Hentries. specialize (Hentries (or_introl eq_refl)). lia. }
  unfold handleJoinRoom. apply String.eqb_neq in Hc. rewrite Hc, Hroom.
  cbv beta iota zeta. rewrite Hplayers. cbn [length Nat.leb].
  cbv beta iota. rewrite Hplayers. cbn -[broadcastToRoom].
  unfold broadcastToRoom, to_open_players. cbn.
  rewrite !lookup_insert_eq. cbn.
  rewrite Hp0, Nat.eqb_refl, insert_insert_eq, Hended. cbn.
  by destruct (open (ws p0)), (open w).
Qed.

Lemma join_existing_room_witness :
  (handleJoinRoom all_open
     (run [Receive 1 (Parsed (JoinRoom None)) "0.abc123xyz"] initial)
     2 (Some "ABC123") "0.k2j5").2
  = [ Send 2 (RoomJoined "ABC123" "O"); Send 1 (PlayerJoined "O");
      Send 1 (GameStart "X"); Send 2 (GameStart "X") ].
Proof.
  pose proof (join_existing_room all_open
                (run [Receive 1 (Parsed (JoinRoom None)) "0.abc123xyz"] initial)
                2 "ABC123"
                (mkRoom "ABC123" [mkPlayer 0 1 "X" "ABC123"] emptyBoard "X"
                   false false)
                "0.k2j5"
                (reachable_run _ _ reachable_initial)
                ltac:(discriminate) eq_refl ltac:(simpl; lia)) as H.
  exact (f_equal snd (proj2 (proj2 (proj2 H)))).
Defined.

(** ** A new game *)

Lemma first_move_continues (l r k : nat) :
  in_grid (l, r, k) →
  checkWin (set_cell emptyBoard (l, r, k) "X") "X" = None ∧
  checkDraw (set_cell emptyBoard (l, r, k) "X") = false.
Proof.
  intros (Hl & Hr & Hk).
  destruct l as [|[|[|l]]]; [| | |lia];
    destruct r as [|[|[|r]]]; try lia;
    destruct k as [|[|[|k]]]; try lia; by vm_compute.
Qed.

(** X8: [new_game] from a player of a room with two players is accepted
    whatever the state of the game: the board is wiped, the turn goes to X,
    the game is started and not ended, the players and their symbols stay,
    and [game_start] goes to the players; after it, a move of a player of
    that room who holds X, on any cell of the grid, is accepted and hands
    the turn to O. *)
Theorem new_game_restarts (open : nat -> bool) (st : State) (w w' : nat)
    (player player' : Player) (room : Room) (l r k : nat) :
  playerConnections st !! w = Some player →
  rooms st !! roomCode player = Some room →
  (2 <= length (players room))%nat →
  playerConnections st !! w' = Some player' →
  roomCode player' = roomCode player → symbol player' = "X" →
  in_grid (l, r, k) →
  let fresh := mkRoom (code room) (players room) emptyBoard "X" true false in
  let st1 := with_rooms st (<[roomCode player := fresh]> (rooms st)) in
  let key := fun n : nat => KIndex (Z.of_nat n) in
  handleNewGame open st w
  = (st1, to_open_players open (players room) (GameStart "X")) ∧
  handleMakeMove open st1 w' (key l) (key r) (key k)
  = Return
      (with_rooms st1
         (<[roomCode player :=
              mkRoom (code room) (players room)
                (set_cell emptyBoard (l, r, k) "X") "O" true false]>
            (rooms st1)),
       to_open_players open (players room)
         (MoveMade (key l) (key r) (key k) "X" "O")).
Proof.
  intros Hbound Hroom Hlen Hbound' Hsame Hsym Hgrid fresh st1 key.
  split.
  - unfold handleNewGame. rewrite Hbound, Hroom.
    rewrite (proj2 (Nat.ltb_ge _ _) Hlen). cbv zeta.
    erewrite broadcastToRoom_room
      by (cbn [rooms with_rooms]; apply lookup_insert_eq).
    done.
  - destruct (first_move_continues l r k Hgrid) as [Hwin Hdraw].
    assert (Hcell : cell_at emptyBoard (l, r, k) = Some "").
    { destruct Hgrid as (Hl & Hr & Hk).
      destruct l as [|[|[|l]]]; [| | |lia];
        destruct r as [|[|[|r]]]; try lia;
        destruct k as [|[|[|k]]]; try lia; done. }
    unfold handleMakeMove. subst st1 fresh. simpl.
    rewrite Hbound', Hsame, lookup_insert_eq. simpl.
    rewrite Hsym. simpl. unfold key.
    destruct (read_cell_index emptyBoard l r k) as [-> | [_ Hnone]];
      [|congruence].
    rewrite Hcell. simpl.
    rewrite assign_cell_index, Hwin, Hdraw.
    rewrite bool_decide_false by (intros [? ?]; done). simpl.
    erewrite broadcastToRoom_room by (simpl; apply lookup_insert_eq).
    done.
Qed.

Lemma new_game_restarts_witness :
  handleNewGame all_open two_players 2
  = (with_rooms two_players
       (<["ABC123" :=
            mkRoom "ABC123"
              [mkPlayer 0 1 "X" "ABC123"; mkPlayer 1 2 "O" "ABC123"]
              emptyBoard "X" true false]> (rooms two_players)),
     [Send 1 (GameStart "X"); Send 2 (GameStart "X")]).
Proof.
  exact (proj1 (new_game_restarts all_open two_players 2 1
                  (mkPlayer 1 2 "O" "ABC123") (mkPlayer 0 1 "X" "ABC123")
                  (mkRoom "ABC123"
                     [mkPlayer 0 1 "X" "ABC123"; mkPlayer 1 2 "O" "ABC123"]
                     emptyBoard "X" true false)
                  1 1 1 eq_refl eq_refl ltac:(simpl; lia) eq_refl eq_refl
                  eq_refl ltac:(simpl; lia))).
Defined.

(** ** Messages that are ignored *)

(** X9: a connection without binding that sends [make_move], [new_game],
    [leave_room] or [chat_message], or that closes, gets no reply and
    changes nothing; so does [new_game] from a player whose room has fewer
    than two players or is not in the registry, and [chat_message] from a
    player whose room is not in the registry. *)
Theorem stale_messages_are_ignored (open : nat -> bool) (st : State) (w : nat)
    (rnd : string) :
  (playerConnections st !! w = None →
   (∀ layer row col,
      onMessage open st w (Parsed (MakeMove layer row col)) rnd = (st, [])) ∧
   onMessage open st w (Parsed NewGame) rnd = (st, []) ∧
   onMessage open st w (Parsed LeaveRoom) rnd = (st, []) ∧
   (∀ text, onMessage open st w (Parsed (ChatMessage text)) rnd = (st, [])) ∧
   onClose open st w = (st, [])) ∧
  (∀ player,
     playerConnections st !! w = Some player →
     (∀ room, rooms st !! roomCode player = Some room →
              (length (players room) < 2)%nat) →
     onMessage open st w (Parsed NewGame) rnd = (st, [])) ∧
  (∀ player text,
     playerConnections st !! w = Some player →
     rooms st !! roomCode player = None →
     onMessage open st w (Parsed (ChatMessage text)) rnd = (st, [])).
Proof.
  split; [|split].
  - intros Hunbound. simpl.
    unfold handleMakeMove, handleNewGame, handleLeaveRoom, handleChatMessage,
      onClose.
    rewrite (handleDisconnect_unbound open st w Hunbound), Hunbound.
    repeat split; done.
  - intros player Hbound Hsmall. simpl. unfold handleNewGame. rewrite Hbound.
    destruct (rooms st !! roomCode player) as [room|]; [|done].
    by rewrite (proj2 (Nat.ltb_lt _ _) (Hsmall room eq_refl)).
  - intros player text Hbound Hgone. simpl. unfold handleChatMessage.
    rewrite Hbound. unfold broadcastToRoom. by rewrite Hgone.
Qed.

Lemma stale_messages_are_ignored_witness :
  onMessage all_open two_players 7 (Parsed NewGame) "" = (two_players, []).
Proof.
  exact (proj1 (proj2 (proj1 (stale_messages_are_ignored all_open two_players 7 "")
                         eq_refl))).
Defined.

(** ** What a move does to the boards *)

(** X10: whatever its fields, a [make_move] that returns leaves every room
    in the registry with its players and code, leaves the bindings as they
    are, and never overwrites a cell: every cell that held a symbol holds
    it afterwards, and a board changes, if at all, in one cell of the room
    of the sender, which was empty and takes the sender's symbol. *)
Theorem make_move_writes_one_empty_cell (open : nat -> bool) (st : State)
    (w : nat) (layer row col : JsKey) (r : State * list Effect)
    (c : string) (room : Room) :
  handleMakeMove open st w layer row col = Return r →
  rooms st !! c = Some room →
  playerConnections r.1 = playerConnections st ∧
  ∃ room',
    rooms r.1 !! c = Some room' ∧
    players room' = players room ∧ code room' = code room ∧
    (∀ coord v, cell_at (board room) coord = Some v → v ≠ "" →
                cell_at (board room') coord = Some v) ∧
    (board room' = board room
     ∨ ∃ coord player,
         playerConnections st !! w = Some player ∧ roomCode player = c ∧
         cell_at (board room) coord = Some "" ∧
         board room' = set_cell (board room) coord (symbol player)).
Proof.
  intros Hmove Hroom.
  apply handleMakeMove_cases in Hmove
    as [-> | (player & room0 & Hb & Hr & _ & _ & _ & Hread & ended & ->)].
  { split; [done|]. exists room. repeat split; try done. by left. }
  split; [done|]. simpl. rewrite lookup_insert.
  case_decide as Hc; [|exists room; repeat split; try done; by left].
  subst c. rewrite Hr in Hroom. injection Hroom as ->.
  eexists. split; [done|]. simpl. split; [done|]. split; [done|].
  apply read_empty_cases in Hread
    as [(l & rw & k & -> & -> & -> & Hcell) | (-> & -> & ->)].
  - rewrite assign_cell_index. split.
    + intros coord v Hv Hne. rewrite cell_at_set_cell.
      case_decide; [subst coord; congruence | done].
    + right. exists (l, rw, k), player. done.
  - split; [done | by left].
Qed.

Lemma make_move_writes_one_empty_cell_witness :
  ∃ room',
    rooms (with_rooms two_players
             (<["ABC123" :=
                  mkRoom "ABC123"
                    [mkPlayer 0 1 "X" "ABC123"; mkPlayer 1 2 "O" "ABC123"]
                    (set_cell emptyBoard (0, 0, 0)%nat "X") "O" true false]>
                (rooms two_players))) !! "ABC123" = Some room' ∧
    players room' = [mkPlayer 0 1 "X" "ABC123"; mkPlayer 1 2 "O" "ABC123"].
Proof.
  destruct (make_move_writes_one_empty_cell all_open two_players 1
              (KIndex 0) (KIndex 0) (KIndex 0) _ "ABC123"
              (mkRoom "ABC123"
                 [mkPlayer 0 1 "X" "ABC123"; mkPlayer 1 2 "O" "ABC123"]
                 emptyBoard "X" true false)
              eq_refl eq_refl) as (_ & room' & Hroom' & Hplayers & _).
  exists room'. exact (conj Hroom' Hplayers).
Defined.

(** ** Who moves next *)

(** X11: in a reachable state, once a move of a connection is accepted
    (its player is bound to an active room, has the turn, and the cell
    reads as empty), the next [make_move] of the same connection, whatever
    its fields, is refused and changes nothing: with "Game not active" if
    the accepted move ended the game, with "Not your turn" otherwise, the
    turn having passed to the other symbol. *)
Theorem no_second_move_in_a_row (open open' : nat -> bool) (st : State)
    (w : nat) (player : Player) (room : Room)
    (layer row col layer' row' col' : JsKey) (rnd : string) :
  reachable st →
  playerConnections st !! w = Some player →
  rooms st !! roomCode player = Some room →
  gameStarted room = true → gameEnded room = false →
  currentPlayer room = symbol player →
  read_cell (board room) layer row col = Return (VString "") →
  ∃ st1 sent room1,
    handleMakeMove open st w layer row col = Return (st1, sent) ∧
    rooms st1 !! roomCode player = Some room1 ∧
    (gameEnded room1 = false →
     currentPlayer room1 = otherPlayer (symbol player) ∧
     currentPlayer room1 ≠ symbol player) ∧
    onMessage open' st1 w (Parsed (MakeMove layer' row' col')) rnd
    = (st1, [Send w (Error (if gameEnded room1 then "Game not active"
                            else "Not your turn"))]).
Proof.
  intros Hreach Hbound Hroom Hstarted Hended Hturn Hread.
  destruct (reachable_consistent st Hreach) as [_ [Hbind _]].
  destruct (Hbind w player Hbound) as (_ & Hsym & _).
  assert (Hother : otherPlayer (symbol player) ≠ symbol player).
  { unfold otherPlayer. by destruct Hsym as [-> | ->]. }
  destruct (handleMakeMove open st w layer row col) as [[st1 sent]|] eqn:Hmove.
  2: { unfold handleMakeMove in Hmove.
       rewrite Hbound, Hroom, Hstarted, Hended in Hmove. simpl in Hmove.
       rewrite Hturn, String.eqb_refl, Hread in Hmove. simpl in Hmove.
       by destruct (bool_decide _ || _). }
  assert (Hst1 : ∃ ended : bool,
    st1 = with_rooms st
            (<[roomCode player :=
                 mkRoom (code room) (players room)
                   (assign_cell (board room) layer row col (symbol player))
                   (if ended then currentPlayer room
                    else otherPlayer (currentPlayer room))
                   true ended]> (rooms st))).
  { unfold handleMakeMove in Hmove.
    rewrite Hbound, Hroom, Hstarted, Hended in Hmove. simpl in Hmove.
    rewrite Hturn, String.eqb_refl, Hread in Hmove. simpl in Hmove.
    destruct (bool_decide _ || _); injection Hmove as <- _.
    - exists true. by rewrite ?Hstarted, ?Hended, ?Hturn.
    - exists false. by rewrite ?Hstarted, ?Hended, ?Hturn. }
  destruct Hst1 as [ended ->].
  eexists _, sent, _. split; [done|].
  split; [simpl; apply lookup_insert_eq|].
  split.
  - simpl. intros ->. by rewrite Hturn.
  - simpl. unfold handleMakeMove. simpl.
    rewrite Hbound, lookup_insert_eq. simpl.
    destruct ended; simpl; [done|].
    rewrite Hturn. apply String.eqb_neq in Hother. by rewrite Hother.
Qed.

Lemma no_second_move_in_a_row_witness :
  ∃ st1 sent room1,
    handleMakeMove all_open two_players 1 (KIndex 1) (KIndex 1) (KIndex 1)
    = Return (st1, sent) ∧
    rooms st1 !! "ABC123" = Some room1 ∧
    (gameEnded room1 = false →
     currentPlayer room1 = otherPlayer "X" ∧ currentPlayer room1 ≠ "X") ∧
    onMessage all_open st1 1 (Parsed (MakeMove (KIndex 0) (KIndex 2) (KIndex 1))) ""
    = (st1, [Send 1 (Error (if gameEnded room1 then "Game not active"
                            else "Not your turn"))]).
Proof.
  exact (no_second_move_in_a_row all_open all_open two_players 1
           (mkPlayer 0 1 "X" "ABC123")
           (mkRoom "ABC123"
              [mkPlayer 0 1 "X" "ABC123"; mkPlayer 1 2 "O" "ABC123"]
              emptyBoard "X" true false)
           (KIndex 1) (KIndex 1) (KIndex 1) (KIndex 0) (KIndex 2) (KIndex 1) ""
           two_players_reachable eq_refl eq_refl eq_refl eq_refl eq_refl
           eq_refl).
Defined.

(** ** Where messages go *)

Lemma broadcastToRoom_targets (open : nat -> bool) (st : State)
    (target : string) (m : OutMsg) (excludePlayer : option Player)
    (x : Effect) :
  In x (broadcastToRoom open st target m excludePlayer) →
  ∃ room p, rooms st !! target = Some room ∧ In p (players room) ∧
            x = Send (ws p) m ∧ open (ws p) = true.
Proof.
  unfold broadcastToRoom. destruct (rooms st !! target) as [room|]; [|done].
  intros H. apply in_map_iff in H as (p & <- & Hp).
  apply filter_In in Hp as [Hp Hopen].
  apply andb_true_iff in Hopen as [_ Hopen]. by exists room, p.
Qed.

Lemma seated_intro (st : State) (c : string) (room : Room) (p : Player) :
  rooms st !! c = Some room → In p (players room) → seated st (ws p) c.
Proof. intros Hroom Hp. exists room, p. by rewrite list_elem_of_In. Qed.

Lemma handleJoinRoom_sends (open : nat -> bool) (st : State) (w : nat)
    (requested : option string) (rnd : string) (to : nat) (m : OutMsg) :
  In (Send to m) (handleJoinRoom open st w requested rnd).2 →
  to = w ∨ (open to = true ∧
            ∃ c, seated (handleJoinRoom open st w requested rnd).1 to c).
Proof.
  unfold handleJoinRoom.
  set (existing := match requested with Some c => _ | None => _ end).
  set (joinable := match existing with Some _ => _ | None => _ end).
  destruct joinable as [[[c room] st0]|]; [|by intros [[= <- _]|[]]; left].
  cbv zeta. destruct (length _ =? 2)%nat; cbn [fst snd]; intros H.
  - destruct H as [[= <- _] | H]; [by left|]. right.
    apply in_app_or in H as [H|H];
      apply broadcastToRoom_targets in H as (rm & p & Hrm & Hp & [= -> _] & Hopen);
      (split; [done|]); exists c; cbn [rooms with_rooms] in *;
      rewrite ?insert_insert_eq in *; rewrite lookup_insert_eq in Hrm;
      injection Hrm as <-;
      by eapply seated_intro; [apply lookup_insert_eq|].
  - destruct H as [[= <- _] | H]; [by left|]. right.
    apply broadcastToRoom_targets in H as (rm & p & Hrm & Hp & [= -> _] & Hopen).
    split; [done|]. exists c. by eapply seated_intro.
Qed.

Lemma handleMakeMove_sends (open : nat -> bool) (st : State) (w : nat)
    (layer row col : JsKey) (r : State * list Effect) (to : nat) (m : OutMsg) :
  handleMakeMove open st w layer row col = Return r →
  In (Send to m) r.2 →
  to = w ∨ (open to = true ∧ ∃ c, seated r.1 to c).
Proof.
  unfold handleMakeMove.
  destruct (playerConnections st !! w) as [player|]; [|by intros [= <-] []].
  destruct (rooms st !! roomCode player) as [room|];
    [|by intros [= <-] [[= <- _]|[]]; left].
  destruct (negb (gameStarted room) || gameEnded room);
    [by intros [= <-] [[= <- _]|[]]; left|].
  destruct (negb (currentPlayer room =? symbol player));
    [by intros [= <-] [[= <- _]|[]]; left|].
  destruct (read_cell (board room) layer row col) as [v|]; [|done].
  destruct (not_empty_string v); [by intros [= <-] [[= <- _]|[]]; left|].
  cbv zeta.
  destruct (bool_decide _ || _); intros [= <-]; cbn [fst snd]; intros H; right.
  - apply in_app_or in H as [H | [[=] | []]].
    apply broadcastToRoom_targets in H as (rm & p & Hrm & Hp & [= -> _] & Hopen).
    split; [done|]. exists (roomCode player). by eapply seated_intro.
  - apply broadcastToRoom_targets in H as (rm & p & Hrm & Hp & [= -> _] & Hopen).
    split; [done|]. exists (roomCode player). by eapply seated_intro.
Qed.

Lemma handleDisconnect_sends (open : nat -> bool) (st : State) (w to : nat)
    (m : OutMsg) :
  In (Send to m) (handleDisconnect open st w).2 →
  open to = true ∧ ∃ c, seated (handleDisconnect open st w).1 to c.
Proof.
  destruct (handleDisconnect_cases open st w)
    as [[_ ->] | [(player & Hb & Hr & ->) | (player & room & Hb & Hr & ->)]];
    [by intros [] | by intros [] |].
  cbn [fst snd]. unfold to_open_players. intros H.
  apply in_map_iff in H as (p & [= <- _] & Hp).
  apply filter_In in Hp as [Hp Hopen]. split; [done|].
  exists (roomCode player).
  destruct (List.filter _ (players room)) as [|q rest] eqn:Hfilter; [done|].
  eapply seated_intro; [cbn [rooms]; apply lookup_insert_eq|]. done.
Qed.

(** X12: every message that a step sends goes either to the connection
    that sent the inbound message, or to a connection whose socket is open
    and that has an entry in a room of the resulting state; a timer sends
    only to such connections. *)
Theorem sends_reach_sender_or_room (open : nat -> bool) (st : State)
    (ev : Event) (to : nat) (m : OutMsg) :
  In (Send to m) (step open st ev).2 →
  sender ev = Some to
  ∨ (open to = true ∧ ∃ c, seated (step open st ev).1 to c).
Proof.
  destruct ev as [w data rnd | w | target msg]; cbn [step sender].
  - destruct data as [|message]; cbn [onMessage];
      [by intros [[= <- _]|[]]; left|].
    destruct message; cbn [handleMessage].
    + intros H. apply handleJoinRoom_sends in H as [-> | H]; [by left | by right].
    + destruct (handleMakeMove open st w layer row col) as [r|] eqn:Hmove.
      * intros H. eapply handleMakeMove_sends in H as [-> | H]; [by left | by right | done].
      * by intros [[= <- _]|[]]; left.
    + destruct (handleNewGame_cases open st w)
        as [-> | (player & room & Hb & Hr & _ & ->)]; [by intros []|].
      cbn [fst snd]. unfold to_open_players. intros H. right.
      apply in_map_iff in H as (p & [= <- _] & Hp).
      apply filter_In in Hp as [Hp Hopen]. split; [done|].
      exists (roomCode player).
      eapply seated_intro; [cbn [rooms with_rooms]; apply lookup_insert_eq|].
      done.
    + intros H. right. by apply (handleDisconnect_sends _ _ _ _ m).
    + unfold handleChatMessage.
      destruct (playerConnections st !! w) as [player|]; [|by intros []].
      cbn [fst snd]. intros H. right.
      apply broadcastToRoom_targets in H as (rm & p & Hrm & Hp & [= -> _] & Hopen).
      split; [done|]. exists (roomCode player). by eapply seated_intro.
    + by intros [[= <- _]|[]]; left.
    + by intros [[= <- _]|[]]; left.
  - intros H. right. by apply (handleDisconnect_sends _ _ _ _ m).
  - unfold onTimeout. cbn [fst snd]. intros H. right.
    apply broadcastToRoom_targets in H as (rm & p & Hrm & Hp & [= -> _] & Hopen).
    split; [done|]. exists target. by eapply seated_intro.
Qed.

Lemma sends_reach_sender_or_room_witness :
  sender (Close 1) = Some 2
  ∨ (all_open 2 = true ∧ ∃ c, seated (step all_open two_players (Close 1)).1 2 c).
Proof.
  apply (sends_reach_sender_or_room all_open two_players (Close 1) 2
           (PlayerLeft "X")).
  simpl. by left.
Defined.

(** ** Rooms do not interfere *)






(** ** The announcement of the end of a game *)

Lemma broadcastToRoom_no_timer (open : nat -> bool) (st : State)
    (target : string) (m : OutMsg) (excludePlayer : option Player)
    (ms : nat) (c : string) (m' : OutMsg) :
  ¬ In (SetTimeout ms c m') (broadcastToRoom open st target m excludePlayer).
Proof.
  intros H. by apply broadcastToRoom_sends in H as [? ?].
Qed.

Lemma to_open_players_no_timer (open : nat -> bool) (ps : list Player)
    (m : OutMsg) (ms : nat) (c : string) (m' : OutMsg) :
  ¬ In (SetTimeout ms c m') (to_open_players open ps m).
Proof.
  unfold to_open_players. intros H. by apply in_map_iff in H as (? & ? & _).
Qed.

(** X14: a timer is set only by a [make_move] that ends an active game,
    with a delay of 500 ms and for the room of the mover; its [game_over]
    names the mover as winner together with a line of the table that is
    full of the mover's symbol on the board after the move, or names
    nobody, in which case that board has no empty cell and no line full of
    the mover's symbol. *)
Theorem game_over_is_sound (open : nat -> bool) (st : State) (ev : Event)
    (ms : nat) (target : string) (m : OutMsg) :
  In (SetTimeout ms target m) (step open st ev).2 →
  ∃ w layer row col rnd player room room1,
    ev = Receive w (Parsed (MakeMove layer row col)) rnd ∧
    playerConnections st !! w = Some player ∧ target = roomCode player ∧
    rooms st !! target = Some room ∧
    gameStarted room = true ∧ gameEnded room = false ∧
    rooms (step open st ev).1 !! target = Some room1 ∧
    gameEnded room1 = true ∧ ms = 500%nat ∧
    ((∃ line, m = GameOver (Some (symbol player)) (Some line) ∧
              line ∈ winningCombinations ∧
              line_full (board room1) (symbol player) line)
     ∨ (m = GameOver None None ∧ checkDraw (board room1) = true ∧
        ∀ line, line ∈ winningCombinations →
                ¬ line_full (board room1) (symbol player) line)).
Proof.
  destruct ev as [w data rnd | w | target' m']; cbn [step].
  2: { unfold onClose. intros H. exfalso.
       destruct (handleDisconnect_cases open st w)
         as [[_ Heq] | [(p & _ & _ & Heq) | (p & rm & _ & _ & Heq)]];
         rewrite Heq in H; cbn [snd] in H; try done.
       by apply to_open_players_no_timer in H. }
  2: { unfold onTimeout. cbn [snd]. intros H.
       by apply broadcastToRoom_no_timer in H. }
  destruct data as [|message]; cbn [onMessage]; [by intros [[=]|[]]|].
  destruct message; cbn [handleMessage].
  - intros H. exfalso. revert H. unfold handleJoinRoom.
    set (existing := match requested with Some c => _ | None => _ end).
    set (joinable := match existing with Some _ => _ | None => _ end).
    destruct joinable as [[[c room] st0]|]; [|by intros [[=]|[]]].
    cbv zeta. destruct (length _ =? 2)%nat; cbn [snd]; intros H.
    + destruct H as [[=] | H].
      apply in_app_or in H as [H|H]; by apply broadcastToRoom_no_timer in H.
    + destruct H as [[=] | H]. by apply broadcastToRoom_no_timer in H.
  - unfold handleMakeMove.
    destruct (playerConnections st !! w) as [player|] eqn:Hbound; [|by intros []].
    destruct (rooms st !! roomCode player) as [room|] eqn:Hroom;
      [|by intros [[=]|[]]].
    destruct (gameStarted room) eqn:Hstarted; [|by intros [[=]|[]]].
    destruct (gameEnded room) eqn:Hended; [by intros [[=]|[]]|].
    cbn [negb orb].
    destruct (negb (currentPlayer room =? symbol player));
      [by intros [[=]|[]]|].
    destruct (read_cell (board room) layer row col) as [v|]; [|by intros [[=]|[]]].
    destruct (not_empty_string v); [by intros [[=]|[]]|].
    cbv zeta.
    set (board1 := assign_cell (board room) layer row col (symbol player)).
    destruct (checkWin board1 (symbol player)) as [res|] eqn:Hwin.
    + rewrite bool_decide_true by eauto. cbn [orb fst snd]. intros H.
      apply in_app_or in H as [H|H]; [by apply broadcastToRoom_no_timer in H|].
      destruct H as [[= <- <- <-] | []].
      apply checkWin_Some in Hwin as (Hwinner & i & Hi & Hfull & _).
      exists w, layer, row, col, rnd, player, room.
      eexists. repeat split; try done.
      { cbn [rooms with_rooms]. apply lookup_insert_eq. }
      { done. }
      left. exists (winningCells res). cbn [board]. rewrite Hwinner.
      repeat split; try done; [by eapply list_elem_of_lookup_2 | apply Hfull
                              | apply Hfull].
    + rewrite bool_decide_false by (intros [? ?]; done). cbn [orb].
      destruct (checkDraw board1) eqn:Hdraw; cbn [fst snd]; intros H.
      * apply in_app_or in H as [H|H]; [by apply broadcastToRoom_no_timer in H|].
        destruct H as [[= <- <- <-] | []].
        exists w, layer, row, col, rnd, player, room.
        eexists. repeat split; try done.
        { cbn [rooms with_rooms]. apply lookup_insert_eq. }
        { done. }
        right. cbn [board]. repeat split; try done.
        by apply checkWin_None.
      * by apply broadcastToRoom_no_timer in H.
  - intros H. exfalso.
    destruct (handleNewGame_cases open st w)
      as [Heq | (p & rm & _ & _ & _ & Heq)]; rewrite Heq in H; cbn [snd] in H;
      [done | by apply to_open_players_no_timer in H].
  - unfold handleLeaveRoom. intros H. exfalso.
    destruct (handleDisconnect_cases open st w)
      as [[_ Heq] | [(p & _ & _ & Heq) | (p & rm & _ & _ & Heq)]];
      rewrite Heq in H; cbn [snd] in H; try done.
    by apply to_open_players_no_timer in H.
  - unfold handleChatMessage.
    destruct (playerConnections st !! w); cbn [snd]; [|by intros []].
    intros H. by apply broadcastToRoom_no_timer in H.
  - by intros [[=]|[]].
  - by intros [[=]|[]].
Qed.

Lemma game_over_is_sound_witness :
  let over := GameOver (Some "X") (Some [(0, 0, 0); (0, 0, 1); (0, 0, 2)]%nat) in
  let move := Receive 1 (Parsed (MakeMove (KIndex 0) (KIndex 0) (KIndex 2))) "" in
  ∃ player room1,
    playerConnections x_to_win !! 1 = Some player ∧
    rooms (step all_open x_to_win move).1 !! "ABC123" = Some room1 ∧
    gameEnded room1 = true ∧
    line_full (board room1) (symbol player) [(0, 0, 0); (0, 0, 1); (0, 0, 2)]%nat.
Proof.
  intros over move.
  destruct (game_over_is_sound all_open x_to_win move 500 "ABC123" over)
    as (w & layer & row & col & rnd & player & room & room1 & Hev & Hbound
          & _ & _ & _ & _ & Hroom1 & Hended & _ & Hover).
  { vm_compute. tauto. }
  assert (w = 1%nat) as -> by (unfold move in Hev; congruence).
  exists player, room1.
  split; [exact Hbound|]. split; [exact Hroom1|]. split; [exact Hended|].
  destruct Hover as [(line & Hline & _ & Hfull) | [Hnone _]].
  - unfold over in Hline. assert (line = [(0, 0, 0); (0, 0, 1); (0, 0, 2)]%nat)
      as <- by congruence. exact Hfull.
  - unfold over in Hnone. discriminate Hnone.
Defined.
